(** * rabo2ofx: conversion of Rabobank CSV exports to OFX

    A shallow embedding of [rabo2ofx.py] and the properties of its
    field mapper, identifier generator, transfer classifier and
    statement assembler.

    The CSV file is opened with [encoding='iso-8859-1'], so every
    character of a field is one of the 256 Latin-1 code points: a
    field is a [string] whose [ascii] characters are those code points.
    Python's [str] comparison is then the lexicographic order on the
    code points, which is [String.compare]. *)

From Stdlib Require Import ZArith NArith List String Ascii Bool DecimalString.
From stdpp Require Import base gmap sets list strings.

Import ListNotations.

(* [set_solver] clears hypotheses by name; nothing depends on it. *)
Set Warnings "-clear-no-such-hyp".

(** ** Exceptions and results *)

Inductive exn : Type :=
  | KeyError (key : string)
  | ValueError (what : string).

Inductive result (A : Type) : Type :=
  | Ok (a : A)
  | Raise (e : exn).

Arguments Ok {A} a.
Arguments Raise {A} e.

Global Instance result_ret : MRet result := @Ok.

Global Instance result_bind : MBind result := fun A B k r =>
  match r with
  | Ok a => k a
  | Raise e => Raise e
  end.

(** ** Python string primitives on Latin-1 strings *)

Module Py.

Definition chars (s : string) : list ascii := list_ascii_of_string s.
Definition str (cs : list ascii) : string := string_of_list_ascii cs.

Definition code (c : ascii) : N := N_of_ascii c.

Definition is_digit (c : ascii) : bool :=
  (48 <=? code c)%N && (code c <=? 57)%N.

Definition digit_val (c : ascii) : Z := (Z.of_N (code c) - 48)%Z.

(** [Py_ISSPACE] after [_PyUnicode_TransformDecimalAndSpaceToASCII]:
    the six ASCII blanks, and NEL and NBSP, which the transformation
    turns into a blank. This is the white space of [float] and [int]. *)
Definition is_num_space (c : ascii) : bool :=
  ((9 <=? code c)%N && (code c <=? 13)%N)
  || (code c =? 32)%N || (code c =? 133)%N || (code c =? 160)%N.

(** [str.isspace] on Latin-1: the white space of [str.strip]. *)
Definition is_space (c : ascii) : bool :=
  is_num_space c || ((28 <=? code c)%N && (code c <=? 31)%N).

(** [Py_TOLOWER]: ASCII letters only. *)
Definition lower (c : ascii) : ascii :=
  if (65 <=? code c)%N && (code c <=? 90)%N
  then ascii_of_N (code c + 32) else c.

(** [s.replace(old, new)] for a one-character [old]. Every call of
    [replace] in the program has a one-character pattern. *)
Fixpoint replace (old : ascii) (new : string) (s : string) : string :=
  match s with
  | EmptyString => EmptyString
  | String c s' =>
      if Ascii.eqb c old then new +:+ replace old new s'
      else String c (replace old new s')
  end.

Fixpoint lstrip (p : ascii -> bool) (cs : list ascii) : list ascii :=
  match cs with
  | c :: cs' => if p c then lstrip p cs' else cs
  | [] => []
  end.

Definition strip_with (p : ascii -> bool) (cs : list ascii) : list ascii :=
  rev (lstrip p (rev (lstrip p cs))).

(** [s.strip()] *)
Definition strip (s : string) : string := str (strip_with is_space (chars s)).

(** [s.startswith(c)] for a one-character prefix *)
Definition startswith (c : ascii) (s : string) : bool :=
  match s with
  | String c' _ => Ascii.eqb c' c
  | EmptyString => false
  end.

(** Truth value of a [str]: non-empty. *)
Definition truthy (s : string) : bool :=
  match s with
  | EmptyString => false
  | String _ _ => true
  end.

(** [a > b] on [str] *)
Definition gt (a b : string) : bool := String.ltb b a.

(** [str(n)] for a non-negative [int] *)
Definition str_of_nat (n : nat) : string :=
  NilEmpty.string_of_uint (Nat.to_uint n).

End Py.

(** ** The built-in [float] and [int] on strings *)

(** The value [float(s)] denotes, before rounding to a double: a NaN, an
    infinity, or the decimal [(-1)^neg * mant * 10^exp10]. *)
Inductive pyfloat : Type :=
  | PyNan
  | PyInf (neg : bool)
  | PyDec (neg : bool) (mant : Z) (exp10 : Z).

Module Num.

(** [_Py_string_to_number_with_underscores]: an underscore is allowed
    only between two digits, and is dropped. *)
Fixpoint drop_underscores (prev : ascii) (cs : list ascii) : option (list ascii) :=
  match cs with
  | [] => if Ascii.eqb prev "_" then None else Some []
  | c :: cs' =>
      if Ascii.eqb c "_" then
        if Py.is_digit prev then drop_underscores c cs' else None
      else if Ascii.eqb prev "_" && negb (Py.is_digit c) then None
      else cons c <$> drop_underscores c cs'
  end.

Definition sign (cs : list ascii) : bool * list ascii :=
  match cs with
  | "-"%char :: r => (true, r)
  | "+"%char :: r => (false, r)
  | _ => (false, cs)
  end.

Fixpoint span_digits (cs : list ascii) : list ascii * list ascii :=
  match cs with
  | c :: cs' =>
      if Py.is_digit c
      then let '(ds, r) := span_digits cs' in (c :: ds, r)
      else ([], cs)
  | [] => ([], [])
  end.

Definition digits_value (ds : list ascii) : Z :=
  fold_left (fun acc c => (10 * acc + Py.digit_val c)%Z) ds 0%Z.

Definition is_e (c : ascii) : bool := Ascii.eqb c "e" || Ascii.eqb c "E".

(** [_Py_dg_strtod], with the caller's test that the whole string was
    consumed: an optional sign, digits with an optional point (at
    least one digit in all), and an optional exponent that has at
    least one digit. The interpreter also refuses a numeral of more
    than 10^9 digits; no field of a CSV row is that long. *)
Definition strtod (cs : list ascii) : option pyfloat :=
  let '(neg, s1) := sign cs in
  let '(ip, s2) := span_digits s1 in
  let '(fp, s3) :=
    match s2 with
    | "."%char :: r => span_digits r
    | _ => ([], s2)
    end in
  match ip ++ fp with
  | [] => None
  | _ :: _ =>
      let mant := digits_value (ip ++ fp) in
      let frac := Z.of_nat (length fp) in
      match s3 with
      | [] => Some (PyDec neg mant (- frac)%Z)
      | c :: r =>
          if is_e c then
            let '(eneg, r1) := sign r in
            let '(ed, r2) := span_digits r1 in
            match ed, r2 with
            | _ :: _, [] =>
                let e := digits_value ed in
                Some (PyDec neg mant ((if eneg then - e else e) - frac)%Z)
            | _, _ => None
            end
          else None
      end
  end.

(** [_Py_parse_inf_or_nan], with the same test. *)
Definition inf_or_nan (cs : list ascii) : option pyfloat :=
  let '(neg, r) := sign cs in
  let l := Py.str (map Py.lower r) in
  if String.eqb l "inf" || String.eqb l "infinity" then Some (PyInf neg)
  else if String.eqb l "nan" then Some PyNan
  else None.

(** [float(s)]: [None] stands for the [ValueError]. *)
Definition float (s : string) : option pyfloat :=
  cs ← drop_underscores "000" (Py.chars s);
  let t := Py.strip_with Py.is_num_space cs in
  match strtod t with
  | Some f => Some f
  | None => inf_or_nan t
  end.

(** A decimal [mant * 10^exp10] rounds to the double zero exactly when
    it is at most [2^-1075], half the least subnormal (the tie goes to
    the even neighbour, which is zero). *)
Definition rounds_to_zero (mant exp10 : Z) : bool :=
  (mant =? 0)%Z || ((exp10 <? 0)%Z && (mant * 2 ^ 1075 <=? 10 ^ (- exp10))%Z).

(** [x >= 0] for the double that [x] rounds to: false on NaN, true on
    both zeros. *)
Definition ge0 (x : pyfloat) : bool :=
  match x with
  | PyNan => false
  | PyInf neg => negb neg
  | PyDec neg mant exp10 => negb neg || rounds_to_zero mant exp10
  end.

(** [int(s)] in base 10: blanks, an optional sign, digits with single
    underscores between them, blanks. Recent interpreters also refuse a
    numeral of more than 4300 digits unless configured otherwise. *)
Fixpoint int_digits (prev : ascii) (cs : list ascii) (acc : Z) : option Z :=
  match cs with
  | [] => if Ascii.eqb prev "_" then None else Some acc
  | c :: cs' =>
      if Ascii.eqb c "_" then
        if Py.is_digit prev then int_digits c cs' acc else None
      else if Py.is_digit c then int_digits c cs' (10 * acc + Py.digit_val c)%Z
      else None
  end.

Definition int (s : string) : option Z :=
  let t := Py.strip_with Py.is_num_space (Py.chars s) in
  let '(neg, r) := sign t in
  match r with
  | [] => None
  | c :: _ =>
      if Py.is_digit c then
        v ← int_digits "000" r 0%Z;
        Some (if neg then - v else v)%Z
      else None
  end.

End Num.

(** ** Data model *)

(** One row of the CSV file as [csv.DictReader] yields it: the 26 columns
    of [fieldnames], each a string. (A line with fewer columns yields
    [None] for the missing ones; such lines are not modelled.) *)
Record RawRecord : Type := {
  acctNr : string;
  currency : string;
  BIC : string;
  serNr : string;
  Date : string;
  interestDate : string;
  amount : string;
  balance : string;
  counterAcctNr : string;
  counterAcctName : string;
  counterPartyName : string;
  initPartyName : string;
  counterPartyBIC : string;
  bookCode : string;
  batchId : string;
  txRef : string;
  machtigingskenmerk : string;
  incassantID : string;
  betalingskenmerk : string;
  descr1 : string;
  descr2 : string;
  descr3 : string;
  redenRetour : string;
  originalAmount : string;
  originalCurrency : string;
  exchangeRate : string
}.

(** The command-line flags the program consults ([ARGS]). *)
Record Args : Type := {
  dec_comma : bool;
  homebank : bool
}.

(** The dictionary [create_ofx] returns. *)
Module Txn.
Record t : Type := {
  account : string;
  trntype : string;
  dtposted : string;
  trnamt : string;
  fitid : string;
  name : string;
  accountto : string;
  memo : string;
  nr_overrides : nat
}.
End Txn.

(** The per-account dictionary of counters in [OfxWriter.run]. *)
Module Ledger.
Record t : Type := {
  txn_ctr : nat;
  txn_skip : nat;
  txn_processed : nat;
  nr_overrides : nat
}.

Definition zero : t :=
  {| txn_ctr := 0; txn_skip := 0; txn_processed := 0; nr_overrides := 0 |}.
End Ledger.

(** ** Class [CsvFile] *)

Module CsvFile.

Definition bookcode : list (string * string) :=
  [ ("ac", "acceptgiro"); ("ba", "betaalautomaat"); ("bc", "betalen contactloos");
    ("bg", "bankgiro opdracht"); ("cb", "crediteuren betaling"); ("ck", "chipknip");
    ("db", "diverse boekingen"); ("eb", "bedrijven euro-incasso");
    ("ei", "euro-incasso"); ("fb", "finbox"); ("ga", "geldautomaat euro");
    ("gb", "geldautomaat vv"); ("id", "ideal"); ("kh", "kashandeling");
    ("ma", "machtiging"); ("sb", "salarisbetaling"); ("tb", "eigen rekening");
    ("sp", "spoedbetaling"); ("CR", "tegoed"); ("D", "tekort") ]%string.

(** [self.bookcode[code]] *)
Definition bookcode_get (code : string) : result string :=
  match find (fun kv => String.eqb kv.1 code) bookcode with
  | Some kv => Ok kv.2
  | None => Raise (KeyError code)
  end.

Definition map_account (row : RawRecord) : nat * string :=
  (0, Py.replace " " "" (acctNr row)).

Definition map_transaction_type (row : RawRecord) : nat * string :=
  let code := bookCode row in
  let trntype :=
    if String.eqb code "ac" then "XFER"
    else if String.eqb code "ba" then "POS"
    else if String.eqb code "bc" then "POS"
    else if String.eqb code "bg" then "XFER"
    else if String.eqb code "cb" then "XFER"
    else if String.eqb code "ck" then "POS"
    else if String.eqb code "db" then "OTHER"
    else if String.eqb code "eb" then "DIRECTDEBIT"
    else if String.eqb code "ei" then "DIRECTDEBIT"
    else if String.eqb code "ga" then "ATM"
    else if String.eqb code "gb" then "ATM"
    else if String.eqb code "id" then "PAYMENT"
    else if String.eqb code "ma" then "DIRECTDEBIT"
    else if String.eqb code "sb" then "XFER"
    else if String.eqb code "tb" then "XFER"
    else if Py.startswith "-" (amount row) then "DEBIT"
    else "CREDIT" in
  (0, trntype)%string.

(** [overrides['force_date_posted']] is evaluated first and raises a
    [KeyError] when the dictionary has no such key; its value is a
    string of the configuration file, true when non-empty.
    [re.compile(r"\-").sub("", date)] removes every dash. *)
Definition map_date_posted (overrides : gmap string string) (row : RawRecord)
  : result (nat * string) :=
  match overrides !! "force_date_posted"%string with
  | None => Raise (KeyError "force_date_posted")
  | Some force =>
      let date := interestDate row in
      if Py.truthy force && negb (String.eqb date (Date row))
      then Ok (1, Py.replace "-" "" (Date row))
      else Ok (0, Py.replace "-" "" date)
  end.

Definition map_amount (args : Args) (row : RawRecord) : nat * string :=
  let amt := amount row in
  if dec_comma args
  then (0, Py.replace "." "," amt)
  else (0, Py.replace "," "." amt).

Definition map_balance (args : Args) (row : RawRecord) : nat * string :=
  let amt := balance row in
  if dec_comma args
  then (0, Py.replace "." "," amt)
  else (0, Py.replace "," "." amt).

(** The marker chosen by [float(trnamt) >= 0]. *)
Definition dc_code (trnamt : string) : result string :=
  match Num.float trnamt with
  | Some x => Ok (if Num.ge0 x then "C" else "D")%string
  | None => Raise (ValueError "could not convert string to float")
  end.

(** The [key] of [map_fitid]. *)
Definition fitid_key (account volgnr trnamt dtposted dc : string) : string :=
  if Py.truthy volgnr && Py.gt dtposted "20171231"
  then account +:+ volgnr
  else dtposted
       +:+ Py.replace "+" "" (Py.replace "-" "" (Py.replace "." "" (Py.replace "," "" trnamt)))
       +:+ dc.

(** [map_fitid], with the dictionary [self.fitid] passed in and out. *)
Definition map_fitid (seen : gmap string nat)
    (account volgnr trnamt dtposted : string) : result (string * gmap string nat) :=
  dc ← dc_code trnamt;
  let key := fitid_key account volgnr trnamt dtposted dc in
  let sequence :=
    match seen !! key with
    | Some sequence => sequence + 1
    | None => 0
    end in
  Ok (key +:+ Py.str_of_nat sequence, <[key := sequence]> seen).

Definition map_account_to (row : RawRecord) : nat * string :=
  (0, counterAcctNr row).

Definition map_memo_name (row : RawRecord) : result (nat * string * string) :=
  let glue :=
    if Py.truthy (counterAcctNr row) && Py.truthy (counterAcctName row)
    then " " else "" in
  let name := counterAcctNr row +:+ glue +:+ counterAcctName row in
  let descr := Py.strip (descr1 row +:+ descr2 row +:+ descr3 row) in
  '(name, descr) ←
    (if String.eqb (bookCode row) "ba" && negb (Py.truthy name) then
       Ok (descr1 row, descr2 row +:+ descr3 row)
     else if String.eqb (bookCode row) "db" then
       let glue := if Py.truthy name then " " else "" in
       label ← bookcode_get (bookCode row);
       Ok ("[" +:+ bookCode row +:+ "] " +:+ label +:+ glue +:+ name, descr)
     else if String.eqb (bookCode row) "ac" then
       Ok (name, descr +:+ "betalingskenmerk " +:+ betalingskenmerk row)
     else Ok (name, descr))%string;
  Ok (0, name, Py.replace "&" "&amp" descr).

Definition create_ofx (args : Args) (overrides : gmap string string)
    (seen : gmap string nat) (row : RawRecord) : result (Txn.t * gmap string nat) :=
  let nr_overrides := 0 in
  let '(times_override, account) := map_account row in
  let nr_overrides := nr_overrides + times_override in
  let '(times_override, trntype) := map_transaction_type row in
  let nr_overrides := nr_overrides + times_override in
  '(times_override, dtposted) ← map_date_posted overrides row;
  let nr_overrides := nr_overrides + times_override in
  let '(times_override, trnamt) := map_amount args row in
  let nr_overrides := nr_overrides + times_override in
  '(fitid, seen) ← map_fitid seen account (serNr row) trnamt dtposted;
  let '(times_override, accountto) := map_account_to row in
  let nr_overrides := nr_overrides + times_override in
  '(times_override, name, memo) ← map_memo_name row;
  let nr_overrides := nr_overrides + times_override in
  Ok ({| Txn.account := account; Txn.trntype := trntype; Txn.dtposted := dtposted;
         Txn.trnamt := trnamt; Txn.fitid := fitid; Txn.name := name;
         Txn.accountto := accountto; Txn.memo := memo;
         Txn.nr_overrides := nr_overrides |}, seen).

(** The loop of [__init__] over the data rows (the header row is
    already dropped): [self.transactions], and [self.fitid] at the end. *)
Fixpoint read_rows (args : Args) (overrides : gmap string string)
    (seen : gmap string nat) (rows : list RawRecord)
  : result (list Txn.t * gmap string nat) :=
  match rows with
  | [] => Ok ([], seen)
  | row :: rows' =>
      '(ofx_data, seen) ← create_ofx args overrides seen row;
      '(transactions, seen) ← read_rows args overrides seen rows';
      Ok (ofx_data :: transactions, seen)
  end.

Definition init (args : Args) (overrides : gmap string string)
    (rows : list RawRecord) : result (list Txn.t) :=
  '(transactions, _) ← read_rows args overrides ∅ rows;
  Ok transactions.

End CsvFile.

(** ** Class [Cfg] *)

(** What [configparser] hands over once the file is read: the sections
    by name, each with its options in file order. *)
Definition ConfigParser : Type := list (string * list (string * string)).

Module Cfg.

Record t : Type := {
  config_accounts : list string;
  config_overrides : gmap string string
}.

(** [config[name]]: a [KeyError] when the file has no such section. *)
Definition section (config : ConfigParser) (name : string)
  : result (list (string * string)) :=
  match find (fun kv => String.eqb kv.1 name) config with
  | Some kv => Ok kv.2
  | None => Raise (KeyError name)
  end.

Section Init.
(** [str.upper] is applied to text of the configuration file, which
    is not limited to Latin-1; it is left abstract. *)
Variable upper : string -> string.

(** [Cfg.__init__]; [configfile] is [None] when
    [config.rabo2ofx.ini] does not exist in the working directory. *)
Definition init (configfile : option ConfigParser) : result t :=
  match configfile with
  | None => Ok {| config_accounts := []; config_overrides := ∅ |}
  | Some config =>
      accounts ← section config "accounts";
      let config_accounts :=
        fold_left (fun l acc => l ++ [upper acc]) (map snd accounts) [] in
      override ← section config "override";
      let config_overrides :=
        fold_left (fun (d : gmap string string) kv => <[kv.1 := kv.2]> d)
                  override ∅ in
      Ok {| config_accounts := config_accounts;
            config_overrides := config_overrides |}
  end.
End Init.

(** The loop of [main_accounts], which stops at [account]. *)
Fixpoint main_accounts_loop (accs : list string) (account : string)
    (main_accounts : gset string) : gset string :=
  match accs with
  | [] => main_accounts
  | main :: accs' =>
      if String.eqb main account then main_accounts
      else main_accounts_loop accs' account (main_accounts ∪ {[main]})
  end.

Definition main_accounts (cfg : t) (account : string) : gset string :=
  main_accounts_loop (config_accounts cfg) account ∅.

End Cfg.

(** ** Class [OfxWriter] *)

(** What [run] writes to the OFX file, in order; the text of each
    message is a fixed template filled with the arguments shown. *)
Inductive message : Type :=
  | message_header (nowdate : string)
  | account_message_start (account : string) (mindate maxdate : Z)
  | message_transaction (trns : Txn.t)
  | account_message_end
  | message_footer.

Module OfxWriter.

(** [gather_transfer_accounts], with [self.processed_accounts] passed
    in. The second loop runs over a set, in the order of its elements. *)
Definition gather_transfer_accounts (cfg : Cfg.t) (processed_accounts : gset string)
    (account : string) : gset string :=
  let transfer_accounts :=
    if bool_decide (account ∈ Cfg.config_accounts cfg)
    then Cfg.main_accounts cfg account
    else fold_left (fun (s : gset string) acc => s ∪ {[acc]})
                   (Cfg.config_accounts cfg) ∅ in
  set_fold (fun acc (s : gset string) =>
              if bool_decide (acc ∈ Cfg.config_accounts cfg) then s
              else s ∪ {[acc]})
           transfer_accounts processed_accounts.

(** The first loop of [run]: the dictionary [accounts], its keys in
    the order of first appearance, and the bounds of the posted dates.
    [int] raises a [ValueError] on a date that is not a number. *)
Fixpoint gather_accounts (transactions : list Txn.t)
    (accounts : list (string * Ledger.t)) (mindate maxdate : Z)
  : result (list (string * Ledger.t) * Z * Z) :=
  match transactions with
  | [] => Ok (accounts, mindate, maxdate)
  | trns :: rest =>
      let accNr := Txn.account trns in
      let accounts :=
        if existsb (fun kv => String.eqb kv.1 accNr) accounts then accounts
        else accounts ++ [(accNr, Ledger.zero)] in
      match Num.int (Txn.dtposted trns) with
      | None => Raise (ValueError "invalid literal for int() with base 10")
      | Some d =>
          let mindate := if (d <? mindate)%Z then d else mindate in
          let maxdate := if (d >? maxdate)%Z then d else maxdate in
          gather_accounts rest accounts mindate maxdate
      end
  end.

(** The inner loop of [run] for one [account]: the counters of
    [accounts[account]] and the transactions written. *)
Fixpoint scan_transactions (args : Args) (transfer_accounts : gset string)
    (account : string) (transactions : list Txn.t) (rec : Ledger.t)
  : Ledger.t * list message :=
  match transactions with
  | [] => (rec, [])
  | trns :: rest =>
      if String.eqb (Txn.account trns) account then
        let rec := {| Ledger.txn_ctr := Ledger.txn_ctr rec + 1;
                      Ledger.txn_skip := Ledger.txn_skip rec;
                      Ledger.txn_processed := Ledger.txn_processed rec;
                      Ledger.nr_overrides := Ledger.nr_overrides rec |} in
        if bool_decide (Txn.accountto trns ∈ transfer_accounts) && negb (homebank args)
        then
          let rec := {| Ledger.txn_ctr := Ledger.txn_ctr rec;
                        Ledger.txn_skip := Ledger.txn_skip rec + 1;
                        Ledger.txn_processed := Ledger.txn_processed rec;
                        Ledger.nr_overrides := Ledger.nr_overrides rec |} in
          scan_transactions args transfer_accounts account rest rec
        else
          let rec := {| Ledger.txn_ctr := Ledger.txn_ctr rec;
                        Ledger.txn_skip := Ledger.txn_skip rec;
                        Ledger.txn_processed := Ledger.txn_processed rec + 1;
                        Ledger.nr_overrides :=
                          Ledger.nr_overrides rec + Txn.nr_overrides trns |} in
          let '(rec, out) :=
            scan_transactions args transfer_accounts account rest rec in
          (rec, message_transaction trns :: out)
      else scan_transactions args transfer_accounts account rest rec
  end.

(** The outer loop of [run] over the keys of [accounts]. Inside the
    loop [accounts[account]] is the entry the loop is at. *)
Fixpoint write_accounts (cfg : Cfg.t) (args : Args) (transactions : list Txn.t)
    (mindate maxdate : Z) (accounts : list (string * Ledger.t))
    (processed_accounts : gset string)
  : list (string * Ledger.t) * list message * gset string :=
  match accounts with
  | [] => ([], [], processed_accounts)
  | (account, rec) :: rest =>
      let transfer_accounts :=
        gather_transfer_accounts cfg processed_accounts account in
      let '(rec, out) :=
        scan_transactions args transfer_accounts account transactions rec in
      let processed_accounts := processed_accounts ∪ {[account]} in
      let '(rest, out', processed_accounts) :=
        write_accounts cfg args transactions mindate maxdate rest processed_accounts in
      ((account, rec) :: rest,
       account_message_start account mindate maxdate :: out
         ++ account_message_end :: out',
       processed_accounts)
  end.

(** [run]: the content of the OFX file and the counters that the
    closing statistics print. [processed_accounts] is empty at the
    start of the program. *)
Definition run (cfg : Cfg.t) (args : Args) (nowdate : string)
    (transactions : list Txn.t) : result (list message * list (string * Ledger.t)) :=
  '(accounts, mindate, maxdate) ←
    gather_accounts transactions [] 999999999%Z 0%Z;
  let '(accounts, out, _) :=
    write_accounts cfg args transactions mindate maxdate accounts ∅ in
  Ok (message_header nowdate :: out ++ [message_footer], accounts).

End OfxWriter.

(** The program: [Cfg()], then [OfxWriter(cfg)], which reads the CSV
    file, then [OFX.run()]. The output directory, the file names and
    what is printed on the terminal are left out; the counters that
    the closing statistics print are part of the result. *)
Definition main (upper : string -> string) (configfile : option ConfigParser)
    (args : Args) (nowdate : string) (rows : list RawRecord)
  : result (list message * list (string * Ledger.t)) :=
  cfg ← Cfg.init upper configfile;
  transactions ← CsvFile.init args (Cfg.config_overrides cfg) rows;
  OfxWriter.run cfg args nowdate transactions.

(** The transactions of the OFX file. *)
Definition written (out : list message) : list Txn.t :=
  omap (fun m => match m with message_transaction t => Some t | _ => None end) out.

(** ** Notions used in the statements *)

(** The computation returns rather than raises. *)
Definition succeeds {A : Type} (r : result A) : Prop := exists a, r = Ok a.

(** What [replace] of one character by another does to a character. *)
Definition subst_char (old new c : ascii) : ascii :=
  if Ascii.eqb c old then new else c.

(** The character-wise effect of [map_amount]. *)
Definition separator_for (args : Args) (c : ascii) : ascii :=
  if dec_comma args then subst_char "." "," c else subst_char "," "." c.

Definition is_separator (c : ascii) : bool := Ascii.eqb c "." || Ascii.eqb c ",".

(** The amount has a decimal separator. *)
Definition has_fraction (amt : string) : bool := existsb is_separator (Py.chars amt).

(** The invariant of the amount column: an optional sign, digits, and
    optionally a separator followed by digits. *)
Definition well_formed_amount (amt : string) : bool :=
  let '(_, r) := Num.sign (Py.chars amt) in
  let '(ip, r1) := Num.span_digits r in
  match ip, r1 with
  | _ :: _, [] => true
  | _ :: _, c :: r2 =>
      is_separator c
      && (let '(fp, r3) := Num.span_digits r2 in
          match fp, r3 with
          | _ :: _, [] => true
          | _, _ => false
          end)
  | [], _ => false
  end.

(** The characters of a plain decimal number. *)
Definition plain_char (c : ascii) : bool :=
  Py.is_digit c || Ascii.eqb c "+" || Ascii.eqb c "-" || Ascii.eqb c ".".

(** [s] without its dashes. *)
Definition without_dashes (s : string) : string :=
  Py.str (filter (fun c => c ≠ "-"%char) (Py.chars s)).

(** [amt] without the characters [.], [,], [-] and [+]. *)
Definition digits_only (amt : string) : string :=
  Py.str (filter (fun c => c ∉ ["."; ","; "-"; "+"]%char) (Py.chars amt)).

(** [row] with another amount. *)
Definition with_amount (amt : string) (row : RawRecord) : RawRecord :=
  {| acctNr := acctNr row; currency := currency row; BIC := BIC row; serNr := serNr row;
     Date := Date row; interestDate := interestDate row; amount := amt;
     balance := balance row; counterAcctNr := counterAcctNr row;
     counterAcctName := counterAcctName row; counterPartyName := counterPartyName row;
     initPartyName := initPartyName row; counterPartyBIC := counterPartyBIC row;
     bookCode := bookCode row; batchId := batchId row; txRef := txRef row;
     machtigingskenmerk := machtigingskenmerk row; incassantID := incassantID row;
     betalingskenmerk := betalingskenmerk row; descr1 := descr1 row;
     descr2 := descr2 row; descr3 := descr3 row; redenRetour := redenRetour row;
     originalAmount := originalAmount row; originalCurrency := originalCurrency row;
     exchangeRate := exchangeRate row |}.

(** [map_amount] under one preference, then under another, on the
    amount of [row]. *)
Definition map_amount_twice (first second : Args) (row : RawRecord) : string :=
  (CsvFile.map_amount second (with_amount (CsvFile.map_amount first row).2 row)).2.

(** Two strings of the same length that agree at every position, but
    for a separator standing where the other has a separator. *)
Definition same_but_separators (s r : string) : Prop :=
  Forall2 (fun a b => a = b \/ (is_separator a = true /\ is_separator b = true))
          (Py.chars s) (Py.chars r).

(** The accounts of an ordering that come before the first occurrence of
    [account]; the whole ordering when [account] does not occur. *)
Definition preceding (account : string) (ordering : list string) : list string :=
  match list_find (fun a => a = account) ordering with
  | Some (i, _) => take i ordering
  | None => ordering
  end.

(** The suppressed set as the specification words it. *)
Definition suppressedCounterparties (account : string) (accountOrdering : list string)
    (accountsAlreadyFinalized : gset string) : gset string :=
  (if bool_decide (account ∈ accountOrdering)
   then list_to_set (preceding account accountOrdering) ∖ {[account]}
   else list_to_set accountOrdering)
  ∪ filter (fun acc => acc ∉ accountOrdering) accountsAlreadyFinalized.

(** The position of an account in the ordering: the index of its first
    occurrence. *)
Definition position (account : string) (ordering : list string) : option nat :=
  fst <$> list_find (fun a => a = account) ordering.

(** The transaction is written while [account] is scanned with the
    suppressed set [transfer_accounts]. *)
Definition kept (args : Args) (transfer_accounts : gset string) (account : string)
    (trns : Txn.t) : Prop :=
  Txn.account trns = account
  /\ ~ (Txn.accountto trns ∈ transfer_accounts /\ homebank args = false).

Global Instance kept_dec args T a t : Decision (kept args T a t).
Proof. unfold kept. apply _. Defined.

Definition on_account (account : string) (trns : Txn.t) : Prop :=
  Txn.account trns = account.

Global Instance on_account_dec a t : Decision (on_account a t).
Proof. unfold on_account. apply _. Defined.

Definition keys (accounts : list (string * Ledger.t)) : list string := map fst accounts.

(** The transactions [run] writes for the accounts [ks], in order, when
    the accounts of [processed] are already done. *)
Fixpoint emitted (cfg : Cfg.t) (args : Args) (txns : list Txn.t)
    (ks : list string) (processed : gset string) : list Txn.t :=
  match ks with
  | [] => []
  | a :: ks' =>
      filter (kept args (OfxWriter.gather_transfer_accounts cfg processed a) a) txns
      ++ emitted cfg args txns ks' (processed ∪ {[a]})
  end.

(** The counters of one account once it has been scanned. *)
Definition counted (args : Args) (txns : list Txn.t) (kv : string * Ledger.t) : Prop :=
  exists T : gset string,
    Ledger.txn_ctr kv.2 = length (filter (on_account kv.1) txns)
    /\ Ledger.txn_processed kv.2 = length (filter (kept args T kv.1) txns)
    /\ Ledger.txn_skip kv.2 + Ledger.txn_processed kv.2
       = length (filter (on_account kv.1) txns).

(** The identifier made of a key and a counter. *)
Definition fitid_of (kn : string * nat) : string := kn.1 +:+ Py.str_of_nat kn.2.

(** The counter stored for [key] is below [n]. *)
Definition below (seen : gmap string nat) (key : string) (n : nat) : Prop :=
  match seen !! key with Some m => m < n | None => True end.

(** ** Sample data *)

Module Sample.

(** A row of a transfer between own accounts. *)
Definition row (account serial date interest amt counter : string) : RawRecord :=
  {| acctNr := account; currency := "EUR"; BIC := "RABONL2U"; serNr := serial;
     Date := date; interestDate := interest; amount := amt; balance := "+100,00";
     counterAcctNr := counter; counterAcctName := "J. Jansen"; counterPartyName := "";
     initPartyName := ""; counterPartyBIC := ""; bookCode := "tb"; batchId := "";
     txRef := ""; machtigingskenmerk := ""; incassantID := ""; betalingskenmerk := "";
     descr1 := "spaargeld"; descr2 := ""; descr3 := ""; redenRetour := "";
     originalAmount := ""; originalCurrency := ""; exchangeRate := "" |}.

Definition single_leg : Args := {| dec_comma := false; homebank := false |}.
Definition dual_leg : Args := {| dec_comma := false; homebank := true |}.
Definition comma : Args := {| dec_comma := true; homebank := false |}.

Definition checking : string := "NL01RABO0123456789".
Definition savings : string := "NL02RABO0987654321".

(** A configuration file with both sections. *)
Definition configfile : ConfigParser :=
  [ ("accounts", [("order1", checking); ("order2", savings)]);
    ("override", [("force_date_posted", "")]) ]%string.

(** A configuration file without the [accounts] section. *)
Definition no_accounts : ConfigParser :=
  [ ("override", [("force_date_posted", "")]) ]%string.

(** A configuration file as the module documentation describes it: the
    [accounts] section only. *)
Definition no_override : ConfigParser :=
  [ ("accounts", [("order1", checking); ("order2", savings)]) ]%string.

(** A configuration file whose [accounts] section is empty. *)
Definition empty_accounts : ConfigParser :=
  [ ("accounts", []); ("override", [("force_date_posted", "")]) ]%string.

Definition overrides : gmap string string := {[ "force_date_posted"%string := ""%string ]}.

Definition cfg : Cfg.t :=
  {| Cfg.config_accounts := [checking; savings]; Cfg.config_overrides := overrides |}.

(** Both legs of one transfer, the leg on the savings account first. *)
Definition transfer : list RawRecord :=
  [ row savings "" "2023-01-05" "2023-01-05" "+12,34" checking;
    row checking "000000000000000007" "2023-01-05" "2023-01-04" "-12,34" savings ].

Definition legs : list Txn.t :=
  Eval vm_compute in
    match CsvFile.init single_leg overrides transfer with
    | Ok transactions => transactions
    | Raise _ => []
    end.

Definition leg_savings : Txn.t := Eval vm_compute in nth 0 legs (
  {| Txn.account := ""; Txn.trntype := ""; Txn.dtposted := ""; Txn.trnamt := "";
     Txn.fitid := ""; Txn.name := ""; Txn.accountto := ""; Txn.memo := "";
     Txn.nr_overrides := 0 |}).

Definition leg_checking : Txn.t := Eval vm_compute in nth 1 legs leg_savings.

Definition single_leg_out : list message :=
  Eval vm_compute in
    match OfxWriter.run cfg single_leg "20230201" legs with
    | Ok (out, _) => out
    | Raise _ => []
    end.

Definition single_leg_ledger : list (string * Ledger.t) :=
  Eval vm_compute in
    match OfxWriter.run cfg single_leg "20230201" legs with
    | Ok (_, ledger) => ledger
    | Raise _ => []
    end.

Definition dual_leg_out : list message :=
  Eval vm_compute in
    match OfxWriter.run cfg dual_leg "20230201" legs with
    | Ok (out, _) => out
    | Raise _ => []
    end.

Definition dual_leg_ledger : list (string * Ledger.t) :=
  Eval vm_compute in
    match OfxWriter.run cfg dual_leg "20230201" legs with
    | Ok (_, ledger) => ledger
    | Raise _ => []
    end.

(** Eleven rows with one account and serial number, then a row whose
    serial number extends theirs by the digit [1]. *)
Definition repeated : list RawRecord :=
  replicate 11 (row checking "7" "2023-01-05" "2023-01-05" "-1,00" savings)
  ++ [ row checking "71" "2023-01-06" "2023-01-06" "-1,00" savings ].

End Sample.

Definition float_tests : list (string * option bool) :=
  [ ("12.34", Some true); ("-12.34", Some false); ("+12.34", Some true);
    ("12,34", None); ("-0", Some true); ("-0.0", Some true); ("", None);
    (" 1 ", Some true); ("1_0", Some true); ("1__0", None); ("_1", None);
    ("1_", None); ("1e1_0", Some true); ("1_e5", None); ("1._5", None);
    (".5", Some true); ("5.", Some true); (".", None); ("e5", None);
    ("1e", None); ("1e+", None); ("+inf", Some true); ("-Infinity", Some false);
    ("nAn", Some false); ("-nan", Some false); ("infinit", None);
    ("0x10", None); ("-1e-400", Some true); ("-2.47e-324", Some true);
    ("-2.48e-324", Some false); ("-4.9e-324", Some false); ("+-1", None);
    ("1 2", None); ("-.5e-3", Some false); ("1.e5", Some true);
    ("1_0.0_1e1_0", Some true); ("1 _0", None); ("1e_5", None);
    ("-1e999", Some false); ("- 1", None); ("in", None); ("-", None) ]%string.

(* Conversion of [nat] to decimal digits: [Nat.to_uint] is injective. *)
From Stdlib Require DecimalNat.

(** ** Further notions used in the statements *)

(** The distinct elements of a list in the order of their first
    occurrence. *)
Fixpoint first_seen (l : list string) : list string :=
  match l with
  | [] => []
  | a :: l' => a :: filter (fun b => b ≠ a) (first_seen l')
  end.

(** The statement block of [account] in a file whose transactions are
    [written_txns]. *)
Definition statement_block (mindate maxdate : Z) (written_txns : list Txn.t)
    (account : string) : list message :=
  account_message_start account mindate maxdate
  :: map message_transaction (filter (on_account account) written_txns)
  ++ [account_message_end].

(** The counters of an account describe its transactions read and
    written. *)
Definition accounted (txns written_txns : list Txn.t) (kv : string * Ledger.t) : Prop :=
  let read := filter (on_account kv.1) txns in
  let block := filter (on_account kv.1) written_txns in
  Ledger.txn_ctr kv.2 = length read
  /\ Ledger.txn_processed kv.2 = length block
  /\ Ledger.txn_skip kv.2 = length read - length block
  /\ Ledger.nr_overrides kv.2 = sum_list_with Txn.nr_overrides block.

(** The test that decides, at the end of [run], whether the warning
    about accounts missing from the configuration is printed:
    [len(self.processed_accounts) > len(self.cfg.config_accounts)]. *)
Definition run_warning (cfg : Cfg.t) (args : Args) (transactions : list Txn.t)
  : result bool :=
  '(accounts, mindate, maxdate) ←
    OfxWriter.gather_accounts transactions [] 999999999%Z 0%Z;
  let '(_, _, processed_accounts) :=
    OfxWriter.write_accounts cfg args transactions mindate maxdate accounts ∅ in
  Ok (bool_decide (length (Cfg.config_accounts cfg) < size processed_accounts)).

Global Instance exn_eq_dec : EqDecision exn.
Proof. solve_decision. Defined.

Global Instance result_eq_dec {A : Type} `{EqDecision A} : EqDecision (result A).
Proof. solve_decision. Defined.

(** The key that [map_fitid] computes when [create_ofx] calls it for
    [row]; it does not depend on the rows read before. *)
Definition row_key (args : Args) (overrides : gmap string string) (row : RawRecord)
  : result string :=
  '(_, dtposted) ← CsvFile.map_date_posted overrides row;
  let trnamt := (CsvFile.map_amount args row).2 in
  dc ← CsvFile.dc_code trnamt;
  Ok (CsvFile.fitid_key (CsvFile.map_account row).2 (serNr row) trnamt dtposted dc).

(** The number of rows of [rows] whose key is [key]. *)
Definition key_count (args : Args) (overrides : gmap string string) (key : string)
    (rows : list RawRecord) : nat :=
  length (filter (fun row => row_key args overrides row = Ok key) rows).



(** What [create_ofx] takes over from [row] whatever rows came before. *)
Definition mapped (args : Args) (overrides : gmap string string) (row : RawRecord)
    (t : Txn.t) : Prop :=
  Txn.account t = (CsvFile.map_account row).2
  /\ Txn.trntype t = (CsvFile.map_transaction_type row).2
  /\ Txn.trnamt t = (CsvFile.map_amount args row).2
  /\ Txn.accountto t = (CsvFile.map_account_to row).2
  /\ CsvFile.map_date_posted overrides row = Ok (Txn.nr_overrides t, Txn.dtposted t)
  /\ CsvFile.map_memo_name row = Ok (0, Txn.name t, Txn.memo t).

(** [map_fitid] takes the branch without the sequence number for the
    row: the sequence number is empty, or the posted date is not after
    2017. This is the key of the versions before 2.00. *)
Definition legacy_keyed (overrides : gmap string string) (row : RawRecord) : Prop :=
  serNr row = ""%string
  \/ exists n dtposted,
       CsvFile.map_date_posted overrides row = Ok (n, dtposted)
       /\ Py.gt dtposted "20171231" = false.

(** [int] refuses a numeral of more digits than a limit that can be
    set, 4300 by default and never below 640, which [Num.int] leaves
    out. A string of at most 640 characters is within every such limit:
    on it [Num.int] is [int]. *)
Definition int_sized (s : string) : bool := String.length s <=? 640.


(** ** The name of the OFX file *)

(** The pattern [.[cC][sS][vV]$] matched at the start of [cs]: any
    character but a newline, the letters of [csv] in either case, and
    then the end of the string or a newline that ends the string. *)
Definition csv_suffix_here (cs : list ascii) : bool :=
  match cs with
  | c :: c1 :: c2 :: c3 :: rest =>
      negb (Ascii.eqb c "010")
      && (Ascii.eqb c1 "c" || Ascii.eqb c1 "C")
      && (Ascii.eqb c2 "s" || Ascii.eqb c2 "S")
      && (Ascii.eqb c3 "v" || Ascii.eqb c3 "V")
      && match rest with
         | [] => true
         | [c4] => Ascii.eqb c4 "010"
         | _ => false
         end
  | _ => false
  end.

(** [re.sub(".[cC][sS][vV]$", ".ofx", name)] on the characters of
    [name]: the leftmost match is replaced; at most one character
    follows a match, so there is no second one. *)
Fixpoint sub_csv (cs : list ascii) : list ascii :=
  match cs with
  | [] => []
  | c :: cs' =>
      if csv_suffix_here cs then Py.chars ".ofx" ++ drop 3 cs'
      else c :: sub_csv cs'
  end.

(** [self.filename] as [OfxWriter.__init__] sets it. [outfile] is
    [None] when the option is not given; the names are Latin-1 text, as
    the fields of the CSV file are. *)
Definition ofx_filename (outfile : option string) (csvfile : string) : string :=
  match outfile with
  | Some name =>
      if Py.truthy name then name else Py.str (sub_csv (Py.chars csvfile))
  | None => Py.str (sub_csv (Py.chars csvfile))
  end.

(** ** Further sample data *)

Module Cases.

(** Two identical rows of a savings account, without sequence number. *)
Definition duplicates : list RawRecord :=
  replicate 2 (Sample.row Sample.savings "" "2017-05-01" "2017-05-01" "+5,00"
                 Sample.checking).

Definition duplicates_out : list Txn.t :=
  Eval vm_compute in
    match CsvFile.init Sample.single_leg Sample.overrides duplicates with
    | Ok transactions => transactions
    | Raise _ => []
    end.

(** A configuration that lists the checking account only. *)
Definition checking_only : Cfg.t :=
  {| Cfg.config_accounts := [Sample.checking];
     Cfg.config_overrides := Sample.overrides |}.

(** A configuration that lists no account. *)
Definition unconfigured : Cfg.t :=
  {| Cfg.config_accounts := []; Cfg.config_overrides := Sample.overrides |}.

Definition checking_only_out : list message :=
  Eval vm_compute in
    match OfxWriter.run checking_only Sample.single_leg "20230201" Sample.legs with
    | Ok (out, _) => out
    | Raise _ => []
    end.

Definition checking_only_ledger : list (string * Ledger.t) :=
  Eval vm_compute in
    match OfxWriter.run checking_only Sample.single_leg "20230201" Sample.legs with
    | Ok (_, ledger) => ledger
    | Raise _ => []
    end.

(** The same transfer with the leg on the checking account first. *)
Definition checking_first_out : list message :=
  Eval vm_compute in
    match OfxWriter.run checking_only Sample.single_leg "20230201" (rev Sample.legs) with
    | Ok (out, _) => out
    | Raise _ => []
    end.

Definition checking_first_ledger : list (string * Ledger.t) :=
  Eval vm_compute in
    match OfxWriter.run checking_only Sample.single_leg "20230201" (rev Sample.legs) with
    | Ok (_, ledger) => ledger
    | Raise _ => []
    end.

Definition unconfigured_out : list message :=
  Eval vm_compute in
    match OfxWriter.run unconfigured Sample.single_leg "20230201" Sample.legs with
    | Ok (out, _) => out
    | Raise _ => []
    end.

Definition unconfigured_ledger : list (string * Ledger.t) :=
  Eval vm_compute in
    match OfxWriter.run unconfigured Sample.single_leg "20230201" Sample.legs with
    | Ok (_, ledger) => ledger
    | Raise _ => []
    end.

(** A payment to an account at another bank, written with blanks. *)
Definition payment : list RawRecord :=
  [ Sample.row Sample.checking "000000000000000008" "2023-01-06" "2023-01-06" "-20,00"
      "NL03 INGB 0001 2345 67" ].

Definition paid : Txn.t :=
  Eval vm_compute in
    match CsvFile.init Sample.single_leg Sample.overrides payment with
    | Ok transactions => nth 0 transactions Sample.leg_savings
    | Raise _ => Sample.leg_savings
    end.

Definition payment_out : list message :=
  Eval vm_compute in
    match OfxWriter.run Sample.cfg Sample.single_leg "20230201" [paid] with
    | Ok (out, _) => out
    | Raise _ => []
    end.

Definition payment_ledger : list (string * Ledger.t) :=
  Eval vm_compute in
    match OfxWriter.run Sample.cfg Sample.single_leg "20230201" [paid] with
    | Ok (_, ledger) => ledger
    | Raise _ => []
    end.

End Cases.

(** * Properties *)

(** ** The primitives on sample inputs *)

Example replace_spaces : Py.replace " " "" "NL01 RABO 0123" = "NL01RABO0123"%string.
Proof. reflexivity. Qed.

Example replace_amp : Py.replace "&" "&amp" "a&b&&" = "a&ampb&amp&amp"%string.
Proof. reflexivity. Qed.

Example strip_blank : Py.strip "  a b  " = "a b"%string.
Proof. reflexivity. Qed.

Example str_of_nat_10 : Py.str_of_nat 10 = "10"%string /\ Py.str_of_nat 0 = "0"%string.
Proof. split; reflexivity. Qed.

Example gt_prefix : Py.gt "2018" "20171231" = true /\ Py.gt "20171231" "20171231" = false.
Proof. split; reflexivity. Qed.

(** The model of [float] and of the sign test agrees with the
    interpreter on these strings. *)
Example float_agrees_with_python :
  Forall (fun t => Num.ge0 <$> Num.float t.1 = t.2) float_tests.
Proof. repeat constructor. Qed.

Example int_agrees_with_python :
  Num.int "20230105" = Some 20230105%Z /\ Num.int "2023-01-05" = None
  /\ Num.int " +12 " = Some 12%Z /\ Num.int "1_2" = Some 12%Z
  /\ Num.int "1__2" = None /\ Num.int "+_1" = None /\ Num.int "12_" = None
  /\ Num.int "-0" = Some 0%Z /\ Num.int "" = None /\ Num.int "1.0" = None.
Proof. repeat split; reflexivity. Qed.

Example sample_legs :
  map (fun t => (Txn.account t, Txn.accountto t, Txn.fitid t, Txn.trnamt t)) Sample.legs
  = [ ("NL02RABO0987654321", "NL01RABO0123456789", "202301051234C0", "+12.34");
      ("NL01RABO0123456789", "NL02RABO0987654321",
       "NL01RABO01234567890000000000000000070", "-12.34") ]%string.
Proof. reflexivity. Qed.

Example sample_single_leg :
  map Txn.account (written Sample.single_leg_out) = [Sample.checking]
  /\ map (fun kv => (kv.1, Ledger.txn_ctr kv.2, Ledger.txn_skip kv.2,
                     Ledger.txn_processed kv.2)) Sample.single_leg_ledger
     = [ (Sample.savings, 1, 1, 0); (Sample.checking, 1, 0, 1) ].
Proof. split; reflexivity. Qed.

(** ** Strings *)

Lemma str_chars s : Py.str (Py.chars s) = s.
Proof. apply string_of_list_ascii_of_string. Qed.

Lemma chars_str cs : Py.chars (Py.str cs) = cs.
Proof. apply list_ascii_of_string_of_list_ascii. Qed.

Lemma replace_empty_filter old s :
  Py.replace old "" s = Py.str (filter (fun c => c ≠ old) (Py.chars s)).
Proof.
  induction s as [|c s IH]; [done|]. simpl.
  destruct (Ascii.eqb_spec c old) as [->|Hne].
  - rewrite filter_cons_False by naive_solver. rewrite IH. done.
  - rewrite filter_cons_True by done. simpl. by rewrite IH.
Qed.

(** ** Field mapper *)

(** Whatever else the override dictionary holds, once it gives
    [force_date_posted] a value: when the value is true (a non-empty
    string) and the interest date differs from the transaction date,
    [map_date_posted] returns the count 1 and the transaction date
    without its dashes; when the two dates are equal it returns the count
    0 and the interest date without its dashes, whatever the value. *)
Theorem map_date_posted_override (overrides : gmap string string) (force : string)
    (row : RawRecord) :
  let configured := <["force_date_posted"%string := force]> overrides in
  (force ≠ ""%string -> interestDate row ≠ Date row ->
   CsvFile.map_date_posted configured row = Ok (1, without_dashes (Date row)))
  /\ (interestDate row = Date row ->
      CsvFile.map_date_posted configured row = Ok (0, without_dashes (interestDate row))).
Proof.
  simpl. unfold CsvFile.map_date_posted, without_dashes. rewrite lookup_insert_eq.
  rewrite !replace_empty_filter. split.
  - intros Hne Hdiff. destruct force; [done|]. simpl.
    destruct (String.eqb_spec (interestDate row) (Date row)); done.
  - intros ->. rewrite String.eqb_refl, andb_false_r. done.
Qed.

Lemma map_date_posted_override_witness :
  CsvFile.map_date_posted (<["force_date_posted"%string := "yes"%string]> ∅)
    (Sample.row Sample.checking "7" "2023-01-05" "2023-01-04" "-12,34" Sample.savings)
  = Ok (1, "20230105"%string)
  /\ CsvFile.map_date_posted (<["force_date_posted"%string := ""%string]> ∅)
       (Sample.row Sample.checking "7" "2023-01-05" "2023-01-05" "-12,34" Sample.savings)
     = Ok (0, "20230105"%string).
Proof.
  split.
  - apply (map_date_posted_override ∅ "yes"
             (Sample.row Sample.checking "7" "2023-01-05" "2023-01-04" "-12,34"
                         Sample.savings)); discriminate.
  - apply (map_date_posted_override ∅ ""
             (Sample.row Sample.checking "7" "2023-01-05" "2023-01-05" "-12,34"
                         Sample.savings)); reflexivity.
Defined.


(** C7, at an input where it fails. Without a configuration file
    [Cfg()] leaves the override dictionary empty: the override, an
    option of the program, is not enabled. The row has the same
    interest date and transaction date, so the count is to be 0 and the
    posted date the interest date without its dashes. But
    [overrides['force_date_posted']] is evaluated before the dates are
    compared, and raises a [KeyError]. *)
Theorem map_date_posted_missing_entry :
  exists cfg row,
    Cfg.init (fun s => s) None = Ok cfg
    /\ Cfg.config_overrides cfg !! "force_date_posted"%string = None
    /\ interestDate row = Date row
    /\ CsvFile.map_date_posted (Cfg.config_overrides cfg) row
       = Raise (KeyError "force_date_posted").
Proof.
  eexists _, (Sample.row Sample.savings "" "2023-01-05" "2023-01-05" "+12,34"
                Sample.checking).
  split; [reflexivity|]. split; [reflexivity|]. split; reflexivity.
Qed.

Lemma replace_char_chars old new s :
  Py.chars (Py.replace old (String new EmptyString) s)
  = map (subst_char old new) (Py.chars s).
Proof.
  induction s as [|c s IH]; [done|]. simpl. unfold subst_char at 1.
  destruct (Ascii.eqb c old).
  - change (String new "" +:+ ?x) with (String new x). simpl. by rewrite IH.
  - simpl. by rewrite IH.
Qed.

Lemma map_amount_chars args row :
  Py.chars (CsvFile.map_amount args row).2
  = map (separator_for args) (Py.chars (amount row)).
Proof.
  unfold CsvFile.map_amount, separator_for.
  destruct (dec_comma args); simpl; by rewrite replace_char_chars.
Qed.

Lemma separator_for_twice first second c :
  let c' := separator_for second (separator_for first c) in
  (c = c' \/ (is_separator c = true /\ is_separator c' = true))
  /\ is_separator c' = is_separator c
  /\ (is_separator c = false -> c' = c).
Proof.
  unfold separator_for, subst_char, is_separator.
  destruct (dec_comma first), (dec_comma second);
    destruct (Ascii.eqb c ".") eqn:E1; destruct (Ascii.eqb c ",") eqn:E2;
    simpl; rewrite ?E1, ?E2; simpl;
    try (apply Ascii.eqb_eq in E1; subst c);
    try (apply Ascii.eqb_eq in E2; subst c);
    try discriminate; simpl; auto.
  all: rewrite ?E1, ?E2; simpl; intuition (try discriminate; auto).
Qed.

(** C8. Mapping an amount under one decimal preference and then under
    another (point then comma, comma then point) gives a string of the
    same length that differs from the original only where both have a
    separator: every other character, so every digit and the sign, is
    unchanged and stays in place. *)
Theorem map_amount_round_trip (first second : Args) (row : RawRecord) :
  same_but_separators (amount row) (map_amount_twice first second row)
  /\ filter (fun c => is_separator c = false) (Py.chars (map_amount_twice first second row))
     = filter (fun c => is_separator c = false) (Py.chars (amount row)).
Proof.
  unfold same_but_separators, map_amount_twice.
  rewrite map_amount_chars. simpl. rewrite map_amount_chars.
  generalize (Py.chars (amount row)) as cs.
  induction cs as [|c cs [IH1 IH2]]; [split; [constructor|done]|].
  destruct (separator_for_twice first second c) as (Hc1 & Hc2 & Hc3).
  split.
  - simpl. constructor; [exact Hc1|exact IH1].
  - simpl map. destruct (is_separator c) eqn:Ec.
    + rewrite !filter_cons_False by (rewrite ?Hc2, ?Ec; done). exact IH2.
    + rewrite !filter_cons_True by (rewrite ?Hc2, ?Ec; done).
      rewrite (Hc3 eq_refl). f_equal. exact IH2.
Qed.

(** ** Identifier keys *)

Lemma strip_amount_digits_only amt :
  Py.replace "+" "" (Py.replace "-" "" (Py.replace "." "" (Py.replace "," "" amt)))
  = digits_only amt.
Proof.
  rewrite !replace_empty_filter, !chars_str. unfold digits_only. f_equal.
  induction (Py.chars amt) as [|c cs IH]; [done|].
  destruct (decide (c ∈ ["."; ","; "-"; "+"]%char)) as [Hin|Hout].
  - rewrite (filter_cons_False (fun c => c ∉ _)) by naive_solver.
    rewrite <- IH. clear IH.
    repeat (apply elem_of_cons in Hin as [->|Hin]); [..|by apply elem_of_nil in Hin];
      repeat (first [rewrite filter_cons_True by done | rewrite filter_cons_False by naive_solver]);
      done.
  - rewrite (filter_cons_True (fun c => c ∉ _)) by done.
    rewrite <- IH. clear IH.
    assert (c ≠ "."%char /\ c ≠ ","%char /\ c ≠ "-"%char /\ c ≠ "+"%char) as (?&?&?&?)
      by set_solver.
    repeat rewrite filter_cons_True by done. done.
Qed.

Lemma not_gt_of_leb a b : String.leb a b = true -> Py.gt a b = false.
Proof.
  unfold Py.gt, String.ltb, String.leb. rewrite (String.compare_antisym b a).
  destruct (String.compare a b); simpl; done.
Qed.

Lemma gt_of_leb_lt a b c :
  String.ltb a b = true -> String.leb b c = true -> Py.gt c a = true.
Proof.
  unfold Py.gt. intros Hab Hbc.
  assert (Hle : String.le a c).
  { transitivity b.
    - unfold String.le, String.leb. unfold String.ltb in Hab.
      destruct (String.compare a b); done.
    - unfold String.le. by rewrite Hbc. }
  unfold String.le, String.leb in Hle. unfold String.ltb.
  destruct (String.compare a c) eqn:Hac; [|done|done].
  apply String.compare_eq_iff in Hac. subst c.
  unfold String.ltb in Hab. unfold String.leb in Hbc.
  rewrite (String.compare_antisym b a) in Hbc.
  destruct (String.compare a b); done.
Qed.

Lemma dc_code_marker trnamt dc :
  CsvFile.dc_code trnamt = Ok dc -> dc = "C"%string \/ dc = "D"%string.
Proof.
  unfold CsvFile.dc_code. destruct (Num.float trnamt) as [x|]; [|done].
  destruct (Num.ge0 x); intros [= <-]; auto.
Qed.

(** C3. Whenever [map_fitid] returns an identifier, it is a key followed
    by the decimal counter stored for that key. With a posted date of
    "20171231" or earlier the key is the posted date, the amount without
    [.], [,], [-] and [+], and the debit/credit marker, whatever the
    sequence number; with a posted date of "20180101" or later and a
    non-empty sequence number the key is the account followed by the
    sequence number. *)
Theorem fitid_key_switch (seen : gmap string nat)
    (account volgnr trnamt dtposted fitid : string) (seen' : gmap string nat) :
  CsvFile.map_fitid seen account volgnr trnamt dtposted = Ok (fitid, seen') ->
  exists (dc : string) (sequence : nat),
    CsvFile.dc_code trnamt = Ok dc
    /\ (String.leb dtposted "20171231" = true ->
        let key := dtposted +:+ digits_only trnamt +:+ dc in
        fitid = key +:+ Py.str_of_nat sequence /\ seen' !! key = Some sequence)
    /\ (String.leb "20180101" dtposted = true -> volgnr ≠ ""%string ->
        let key := account +:+ volgnr in
        fitid = key +:+ Py.str_of_nat sequence /\ seen' !! key = Some sequence).
Proof.
  unfold CsvFile.map_fitid. destruct (CsvFile.dc_code trnamt) as [dc|e] eqn:Hdc; [|done].
  simpl. intros [= <- <-].
  exists dc, (match seen !! CsvFile.fitid_key account volgnr trnamt dtposted dc with
              | Some sequence => sequence + 1 | None => 0 end).
  split; [done|]. unfold CsvFile.fitid_key. rewrite strip_amount_digits_only. split.
  - intros Hle. rewrite (not_gt_of_leb _ _ Hle), andb_false_r. simpl.
    split; [done|]. apply lookup_insert_eq.
  - intros Hle Hseq. rewrite (gt_of_leb_lt "20171231" "20180101" dtposted eq_refl Hle).
    destruct volgnr; [done|]. simpl. split; [done|]. apply lookup_insert_eq.
Qed.

Lemma fitid_key_switch_witness :
  (exists dc sequence,
     CsvFile.dc_code "-12.34" = Ok dc
     /\ "201712311234D0"%string
        = ("20171231" +:+ digits_only "-12.34" +:+ dc) +:+ Py.str_of_nat sequence)
  /\ (exists sequence,
        "NL01RABO012345678970"%string
        = (Sample.checking +:+ "7") +:+ Py.str_of_nat sequence).
Proof.
  assert (Hlegacy : CsvFile.map_fitid ∅ Sample.checking "7" "-12.34" "20171231"
                    = Ok ("201712311234D0"%string, {[ "201712311234D"%string := 0 ]}))
    by reflexivity.
  assert (Hmodern : CsvFile.map_fitid ∅ Sample.checking "7" "-12.34" "20180101"
                    = Ok ("NL01RABO012345678970"%string,
                          {[ "NL01RABO01234567897"%string := 0 ]}))
    by reflexivity.
  split.
  - destruct (fitid_key_switch _ _ _ _ _ _ _ Hlegacy) as (dc & sequence & Hdc & H & _).
    exists dc, sequence. split; [exact Hdc|]. apply (H eq_refl).
  - destruct (fitid_key_switch _ _ _ _ _ _ _ Hmodern) as (dc & sequence & _ & _ & H).
    exists sequence. apply (H eq_refl). discriminate.
Defined.

(** *** What [float] accepts *)

Section FloatGrammar.
Local Open Scope char_scope.

Lemma drop_underscores_elem prev cs cs' c :
  Num.drop_underscores prev cs = Some cs' -> c ≠ "_" -> c ∈ cs -> c ∈ cs'.
Proof.
  revert prev cs'. induction cs as [|a cs IH]; intros prev cs' Hdrop Hc Hin.
  - by apply elem_of_nil in Hin.
  - simpl in Hdrop. destruct (Ascii.eqb_spec a "_") as [->|Ha].
    + destruct (Py.is_digit prev); [|done].
      apply elem_of_cons in Hin as [->|Hin]; [done|]. eauto.
    + destruct (Ascii.eqb prev "_" && negb (Py.is_digit a)); [done|].
      destruct (Num.drop_underscores a cs) as [cs''|] eqn:Hrec; [|done].
      simpl in Hdrop. injection Hdrop as <-.
      apply elem_of_cons in Hin as [->|Hin]; [left|right; eauto].
Qed.

Lemma lstrip_elem p cs c : p c = false -> c ∈ cs -> c ∈ Py.lstrip p cs.
Proof.
  intros Hp. induction cs as [|a cs IH]; [done|]. intros Hin. simpl.
  destruct (p a) eqn:Ha; [|done].
  apply elem_of_cons in Hin as [->|Hin]; [congruence|auto].
Qed.

Lemma strip_with_elem p cs c : p c = false -> c ∈ cs -> c ∈ Py.strip_with p cs.
Proof.
  intros Hp Hin. unfold Py.strip_with.
  apply list_elem_of_In, in_rev, list_elem_of_In.
  rewrite rev_involutive. apply lstrip_elem; [done|].
  apply list_elem_of_In. rewrite <- in_rev. apply list_elem_of_In.
  by apply lstrip_elem.
Qed.

Lemma span_digits_spec cs ds r :
  Num.span_digits cs = (ds, r) ->
  cs = ds ++ r /\ Forall (fun c => Py.is_digit c = true) ds.
Proof.
  revert ds r. induction cs as [|a cs IH]; intros ds r Hspan; simpl in Hspan.
  - by injection Hspan as <- <-.
  - destruct (Py.is_digit a) eqn:Ha.
    + destruct (Num.span_digits cs) as [ds' r'] eqn:Hrec.
      injection Hspan as <- <-. destruct (IH _ _ eq_refl) as [-> Hds].
      split; [done|]. by constructor.
    + by injection Hspan as <- <-.
Qed.

Lemma sign_spec cs neg r :
  Num.sign cs = (neg, r) -> cs = r \/ cs = "-" :: r \/ cs = "+" :: r.
Proof.
  unfold Num.sign. intros H.
  destruct cs as [|a cs]; [injection H as <- <-; auto|].
  destruct (ascii_dec a "-") as [->|Hm]; [injection H as <- <-; auto|].
  destruct (ascii_dec a "+") as [->|Hp]; [injection H as <- <-; auto|].
  left.
  destruct a as [[] [] [] [] [] [] [] []]; try (by injection H as <- <-); congruence.
Qed.

Lemma comma_not_digit : Py.is_digit "," = false.
Proof. reflexivity. Qed.

Lemma digits_no_comma ds :
  Forall (fun c => Py.is_digit c = true) ds -> "," ∉ ds.
Proof.
  intros Hds Hin. rewrite Forall_forall in Hds.
  specialize (Hds _ Hin). by rewrite comma_not_digit in Hds.
Qed.

Lemma sign_no_comma cs neg r : Num.sign cs = (neg, r) -> "," ∈ cs -> "," ∈ r.
Proof.
  intros Hs Hin. destruct (sign_spec _ _ _ Hs) as [->| [->| ->]]; [done|..];
    apply elem_of_cons in Hin as [?|?]; done.
Qed.

Lemma strtod_no_comma t x : Num.strtod t = Some x -> "," ∉ t.
Proof.
  unfold Num.strtod. intros Hx Hin.
  destruct (Num.sign t) as [neg s1] eqn:Hsign.
  apply (sign_no_comma _ _ _ Hsign) in Hin.
  destruct (Num.span_digits s1) as [ip s2] eqn:Hip.
  destruct (span_digits_spec _ _ _ Hip) as [-> Hipd].
  apply elem_of_app in Hin as [Hin|Hin]; [by apply digits_no_comma in Hin|].
  assert (exists fp s3,
    (match s2 with "." :: r => Num.span_digits r | _ => ([], s2) end) = (fp, s3)
    /\ Forall (fun c => Py.is_digit c = true) fp /\ ("," ∈ s2 -> "," ∈ s3))
    as (fp & s3 & Hfp & Hfpd & Hs3).
  { destruct s2 as [|a s2]; [by exists [], []|].
    destruct (ascii_dec a ".") as [->|Ha].
    - destruct (Num.span_digits s2) as [fp s3] eqn:Hspan. exists fp, s3.
      destruct (span_digits_spec _ _ _ Hspan) as [-> Hd]. repeat split; [done|].
      intros H. apply elem_of_cons in H as [?|H]; [done|].
      apply elem_of_app in H as [H|H]; [by apply digits_no_comma in H|done].
    - exists [], (a :: s2). split; [|by split].
      destruct a as [[] [] [] [] [] [] [] []]; try done; congruence. }
  rewrite Hfp in Hx. apply Hs3 in Hin.
  destruct (ip ++ fp); [done|].
  destruct s3 as [|c r]; [by apply elem_of_nil in Hin|].
  destruct (Num.is_e c) eqn:He; [|done].
  apply elem_of_cons in Hin as [<-|Hin]; [done|].
  destruct (Num.sign r) as [eneg r1] eqn:Hesign.
  apply (sign_no_comma _ _ _ Hesign) in Hin.
  destruct (Num.span_digits r1) as [ed r2] eqn:Hed.
  destruct (span_digits_spec _ _ _ Hed) as [-> Hedd].
  destruct ed; [done|]. destruct r2; [|done].
  rewrite app_nil_r in Hin. by apply digits_no_comma in Hin.
Qed.

Lemma inf_or_nan_no_comma t x : Num.inf_or_nan t = Some x -> "," ∉ t.
Proof.
  unfold Num.inf_or_nan. intros Hx Hin.
  destruct (Num.sign t) as [neg r] eqn:Hsign.
  apply (sign_no_comma _ _ _ Hsign) in Hin.
  assert (Hl : "," ∈ Py.chars (Py.str (map Py.lower r))).
  { rewrite chars_str. change "," with (Py.lower ","). by apply list_elem_of_fmap_2. }
  destruct (String.eqb_spec (Py.str (map Py.lower r)) "inf") as [E|_];
    [rewrite E in Hl; by vm_compute in Hl; set_solver|].
  destruct (String.eqb_spec (Py.str (map Py.lower r)) "infinity") as [E|_];
    [rewrite E in Hl; by vm_compute in Hl; set_solver|].
  destruct (String.eqb_spec (Py.str (map Py.lower r)) "nan") as [E|_];
    [rewrite E in Hl; by vm_compute in Hl; set_solver|].
  done.
Qed.

Lemma float_no_comma s x : Num.float s = Some x -> "," ∉ Py.chars s.
Proof.
  unfold Num.float. intros Hx Hin.
  destruct (Num.drop_underscores "000" (Py.chars s)) as [cs|] eqn:Hdrop; [|done].
  simpl in Hx.
  apply (drop_underscores_elem _ _ _ _ Hdrop) in Hin; [|done].
  apply (strip_with_elem Py.is_num_space) in Hin; [|done].
  destruct (Num.strtod _) as [f|] eqn:Hst.
  - by apply strtod_no_comma in Hst.
  - by apply inf_or_nan_no_comma in Hx.
Qed.

Lemma plain_char_cases c :
  plain_char c = true -> Py.is_num_space c = false /\ c ≠ "_".
Proof. destruct c as [[] [] [] [] [] [] [] []]; done. Qed.

Lemma digit_plain c : Py.is_digit c = true -> plain_char c = true.
Proof. unfold plain_char. by intros ->. Qed.

Lemma strip_with_plain cs :
  Forall (fun c => plain_char c = true) cs -> Py.strip_with Py.is_num_space cs = cs.
Proof.
  assert (Hl : forall l, Forall (fun c => plain_char c = true) l ->
                         Py.lstrip Py.is_num_space l = l).
  { intros [|a l] H; [done|]. apply Forall_cons in H as [Ha _].
    apply plain_char_cases in Ha as [Ha _]. simpl. by rewrite Ha. }
  intros H. unfold Py.strip_with. rewrite (Hl cs H).
  rewrite Hl; [apply rev_involutive|].
  rewrite Forall_forall in *. intros c Hc. apply H.
  by apply list_elem_of_In, in_rev, list_elem_of_In.
Qed.

Lemma drop_underscores_plain prev cs :
  prev ≠ "_" -> Forall (fun c => plain_char c = true) cs ->
  Num.drop_underscores prev cs = Some cs.
Proof.
  revert prev. induction cs as [|a cs IH]; intros prev Hprev H; simpl.
  - by rewrite (proj2 (Ascii.eqb_neq _ _) Hprev).
  - apply Forall_cons in H as [Ha H].
    apply plain_char_cases in Ha as [_ Ha].
    rewrite (proj2 (Ascii.eqb_neq _ _) Ha), (proj2 (Ascii.eqb_neq _ _) Hprev). simpl.
    by rewrite (IH a Ha H).
Qed.

Lemma sign_digit d cs : Py.is_digit d = true -> Num.sign (d :: cs) = (false, d :: cs).
Proof. destruct d as [[] [] [] [] [] [] [] []]; done. Qed.

Lemma span_digits_app ds r :
  Forall (fun c => Py.is_digit c = true) ds ->
  (forall c r', r = c :: r' -> Py.is_digit c = false) ->
  Num.span_digits (ds ++ r) = (ds, r).
Proof.
  intros Hds Hr. induction Hds as [|d ds Hd _ IH]; simpl.
  - destruct r as [|c r']; [done|]. simpl. by rewrite (Hr c r' eq_refl).
  - by rewrite Hd, IH.
Qed.

(** A signed decimal with a point is accepted. *)
Lemma float_plain_decimal (sg ip fp : list ascii) :
  sg ∈ [[]; ["+"]; ["-"]] -> ip ≠ [] ->
  Forall (fun c => Py.is_digit c = true) ip ->
  Forall (fun c => Py.is_digit c = true) fp ->
  is_Some (Num.float (Py.str (sg ++ ip ++ match fp with [] => [] | _ => "." :: fp end))).
Proof.
  intros Hsg Hip Hipd Hfpd. unfold Num.float. rewrite chars_str.
  set (tl := match fp with [] => [] | _ => "." :: fp end).
  assert (Htl : Forall (fun c => plain_char c = true) tl).
  { subst tl. destruct fp; [done|]. constructor; [done|].
    eapply Forall_impl; [exact Hfpd|]. apply digit_plain. }
  assert (Hall : Forall (fun c => plain_char c = true) (sg ++ ip ++ tl)).
  { rewrite !Forall_app. split_and!; [|eapply Forall_impl; [exact Hipd|apply digit_plain]|done].
    repeat (apply elem_of_cons in Hsg as [->|Hsg]); [by repeat constructor..|].
    by apply elem_of_nil in Hsg. }
  rewrite drop_underscores_plain by done. simpl.
  rewrite strip_with_plain by done.
  assert (Hst : is_Some (Num.strtod (sg ++ ip ++ tl))); [|by destruct Hst as [x ->]; eexists].
  destruct ip as [|d ip]; [done|]. apply Forall_cons in Hipd as Hd. destruct Hd as [Hd _].
  assert (Hsign : exists neg, Num.sign (sg ++ (d :: ip) ++ tl) = (neg, (d :: ip) ++ tl)).
  { repeat (apply elem_of_cons in Hsg as [->|Hsg]); [..|by apply elem_of_nil in Hsg].
    - exists false. by apply sign_digit.
    - by exists false.
    - by exists true. }
  destruct Hsign as [neg Hsign]. unfold Num.strtod. rewrite Hsign.
  rewrite span_digits_app; [|done|].
  2:{ subst tl. intros c r'. destruct fp; [done|]. by intros [= <- _]. }
  subst tl. destruct fp as [|f fp].
  - simpl. rewrite app_nil_r. by eexists.
  - rewrite <- (app_nil_r (f :: fp)) at 1. rewrite span_digits_app by done.
    simpl. by eexists.
Qed.

Lemma well_formed_amount_shape amt :
  well_formed_amount amt = true ->
  exists sg ip fp,
    sg ∈ [[]; ["+"]; ["-"]] /\ ip ≠ []
    /\ Forall (fun c => Py.is_digit c = true) ip
    /\ Forall (fun c => Py.is_digit c = true) fp
    /\ ((fp = [] /\ Py.chars amt = sg ++ ip)
        \/ (fp ≠ [] /\ exists sep, is_separator sep = true
                                   /\ Py.chars amt = sg ++ ip ++ sep :: fp)).
Proof.
  unfold well_formed_amount.
  destruct (Num.sign (Py.chars amt)) as [neg r] eqn:Hsign.
  destruct (Num.span_digits r) as [ip r1] eqn:Hip.
  destruct (span_digits_spec _ _ _ Hip) as [-> Hipd].
  assert (Hsg : exists sg, sg ∈ [[]; ["+"]; ["-"]] /\ Py.chars amt = sg ++ ip ++ r1).
  { destruct (sign_spec _ _ _ Hsign) as [->| [->| ->]];
      [exists []|exists ["-"]|exists ["+"]]; split; try done; set_solver. }
  destruct Hsg as (sg & Hsg & ->).
  destruct ip as [|d ip]; [done|]. destruct r1 as [|c r2].
  - intros _. exists sg, (d :: ip), []. rewrite app_nil_r. split_and!; auto.
  - destruct (is_separator c) eqn:Hc; [|done]. simpl.
    destruct (Num.span_digits r2) as [fp r3] eqn:Hfp.
    destruct (span_digits_spec _ _ _ Hfp) as [-> Hfpd].
    destruct fp as [|f fp]; [done|]. destruct r3; [|done]. intros _.
    exists sg, (d :: ip), (f :: fp). rewrite app_nil_r. split_and!; auto.
    right. split; [done|]. by exists c.
Qed.

Lemma digits_fixed old new ds :
  Py.is_digit old = false ->
  Forall (fun c => Py.is_digit c = true) ds -> map (subst_char old new) ds = ds.
Proof.
  intros Hold Hds. induction Hds as [|d ds Hd _ IH]; [done|]. simpl. rewrite IH.
  unfold subst_char. destruct (Ascii.eqb_spec d old) as [->|]; [congruence|done].
Qed.

Lemma float_point_preference amt :
  well_formed_amount amt = true -> is_Some (Num.float (Py.replace "," "." amt)).
Proof.
  intros Hwf. destruct (well_formed_amount_shape _ Hwf)
    as (sg & ip & fp & Hsg & Hip & Hipd & Hfpd & Hshape).
  rewrite <- (str_chars (Py.replace _ _ _)), replace_char_chars.
  assert (Hsg' : map (subst_char "," ".") sg = sg).
  { repeat (apply elem_of_cons in Hsg as [->|Hsg]); [done..|by apply elem_of_nil in Hsg]. }
  destruct Hshape as [[-> ->]|(Hfp & sep & Hsep & ->)].
  - rewrite map_app, Hsg', digits_fixed by done.
    rewrite <- (app_nil_r ip) at 1.
    by apply (float_plain_decimal sg ip []).
  - rewrite !map_app, Hsg'. simpl. rewrite !digits_fixed by done.
    assert (subst_char "," "." sep = ".") as ->.
    { unfold is_separator in Hsep. unfold subst_char.
      destruct (Ascii.eqb_spec sep ","); [done|].
      destruct (Ascii.eqb_spec sep "."); done. }
    pose proof (float_plain_decimal sg ip fp Hsg Hip Hipd Hfpd) as H.
    destruct fp; done.
Qed.

Lemma no_fraction_unchanged args row :
  has_fraction (amount row) = false -> (CsvFile.map_amount args row).2 = amount row.
Proof.
  intros Hnf. rewrite <- (str_chars (CsvFile.map_amount _ _).2), map_amount_chars.
  rewrite <- (str_chars (amount row)) at 2. f_equal.
  unfold has_fraction in Hnf. induction (Py.chars (amount row)) as [|c cs IH]; [done|].
  simpl in Hnf. apply orb_false_iff in Hnf as [Hc Hcs]. simpl. rewrite (IH Hcs). f_equal.
  unfold is_separator in Hc. apply orb_false_iff in Hc as [Hc1 Hc2].
  unfold separator_for, subst_char. rewrite Hc1, Hc2. by destruct (dec_comma args).
Qed.

Lemma comma_preference_comma args row :
  dec_comma args = true -> has_fraction (amount row) = true ->
  ","%char ∈ Py.chars (CsvFile.map_amount args row).2.
Proof.
  intros Hc Hf. rewrite map_amount_chars. unfold has_fraction in Hf.
  apply existsb_exists in Hf as (c & Hin & Hsep).
  apply list_elem_of_In in Hin.
  replace ","%char with (separator_for args c); [by apply list_elem_of_fmap_2|].
  unfold separator_for, subst_char, is_separator in *. rewrite Hc.
  destruct (Ascii.eqb_spec c "."); [done|].
  destruct (Ascii.eqb_spec c ","); done.
Qed.

Lemma map_fitid_succeeds seen account volgnr trnamt dtposted :
  succeeds (CsvFile.map_fitid seen account volgnr trnamt dtposted)
  <-> is_Some (Num.float trnamt).
Proof.
  unfold CsvFile.map_fitid, CsvFile.dc_code, succeeds.
  destruct (Num.float trnamt) as [x|]; simpl.
  - split; [by eexists|]. intros _. by eexists.
  - split; [by intros [a Ha]|by intros [a Ha]].
Qed.

Lemma map_fitid_value_error seen account volgnr trnamt dtposted :
  Num.float trnamt = None ->
  CsvFile.map_fitid seen account volgnr trnamt dtposted
  = Raise (ValueError "could not convert string to float").
Proof. unfold CsvFile.map_fitid, CsvFile.dc_code. by intros ->. Qed.

Lemma float_comma_none s : ","%char ∈ Py.chars s -> Num.float s = None.
Proof.
  intros Hin. destruct (Num.float s) as [x|] eqn:Hx; [|done].
  by apply float_no_comma in Hx.
Qed.

End FloatGrammar.

Lemma create_ofx_ok_fitid args overrides seen row r :
  CsvFile.create_ofx args overrides seen row = Ok r ->
  exists dtposted,
    succeeds (CsvFile.map_fitid seen (CsvFile.map_account row).2 (serNr row)
                (CsvFile.map_amount args row).2 dtposted).
Proof.
  unfold CsvFile.create_ofx. simpl.
  destruct (CsvFile.map_date_posted overrides row) as [[n dtposted]|e]; [|done]. simpl.
  destruct (CsvFile.map_amount args row) as [k trnamt] eqn:Hamt. simpl.
  destruct (CsvFile.map_fitid seen _ (serNr row) trnamt dtposted) as [r'|e] eqn:Hfit; [|done].
  intros _. exists dtposted. by exists r'.
Qed.

Lemma read_rows_ok_row args overrides seen rows r row :
  CsvFile.read_rows args overrides seen rows = Ok r -> row ∈ rows ->
  exists seen' r', CsvFile.create_ofx args overrides seen' row = Ok r'.
Proof.
  revert seen r. induction rows as [|row' rows IH]; intros seen r Hok Hin.
  - by apply elem_of_nil in Hin.
  - simpl in Hok.
    destruct (CsvFile.create_ofx args overrides seen row') as [[t seen1]|e] eqn:Hrow; [|done].
    simpl in Hok.
    destruct (CsvFile.read_rows args overrides seen1 rows) as [[ts seen2]|e] eqn:Hrest; [|done].
    apply elem_of_cons in Hin as [->|Hin]; [by eauto|].
    by eapply IH.
Qed.

(** C9. Under the decimal-comma preference, a row whose amount has a
    decimal separator is mapped to an amount that contains a comma;
    [float] rejects it, [map_fitid] raises a [ValueError], and no run
    over rows that include it succeeds. For an amount that meets the
    invariant of the column, [map_fitid] succeeds exactly under the
    decimal-point preference or when the amount has no separator. *)
Theorem comma_preference_breaks_fitid (args : Args) (row : RawRecord)
    (seen : gmap string nat) (account dtposted : string) :
  let trnamt := (CsvFile.map_amount args row).2 in
  (dec_comma args = true -> has_fraction (amount row) = true ->
   ","%char ∈ Py.chars trnamt
   /\ CsvFile.map_fitid seen account (serNr row) trnamt dtposted
      = Raise (ValueError "could not convert string to float")
   /\ forall upper configfile nowdate rows,
        row ∈ rows -> ~ succeeds (main upper configfile args nowdate rows))
  /\ (well_formed_amount (amount row) = true ->
      (succeeds (CsvFile.map_fitid seen account (serNr row) trnamt dtposted)
       <-> dec_comma args = false \/ has_fraction (amount row) = false)).
Proof.
  simpl. split.
  - intros Hc Hf. pose proof (comma_preference_comma args row Hc Hf) as Hcomma.
    split_and!; [done|by apply map_fitid_value_error, float_comma_none|].
    intros upper configfile nowdate rows Hin [out Hmain]. unfold main in Hmain.
    destruct (Cfg.init upper configfile) as [cfg|e]; [|done]. simpl in Hmain.
    destruct (CsvFile.init args (Cfg.config_overrides cfg) rows) as [txns|e] eqn:Hinit; [|done].
    unfold CsvFile.init in Hinit.
    destruct (CsvFile.read_rows _ _ _ rows) as [r|e] eqn:Hread; [|done].
    destruct (read_rows_ok_row _ _ _ _ _ _ Hread Hin) as (seen' & r' & Hrow).
    destruct (create_ofx_ok_fitid _ _ _ _ _ Hrow) as (d & Hfit).
    apply map_fitid_succeeds in Hfit as [x Hx].
    by rewrite (float_comma_none _ Hcomma) in Hx.
  - intros Hwf. rewrite map_fitid_succeeds. split.
    + intros Hsome. destruct (dec_comma args) eqn:Hc; [|by left]. right.
      destruct (has_fraction (amount row)) eqn:Hf; [|done].
      destruct Hsome as [x Hx].
      by rewrite (float_comma_none _ (comma_preference_comma args row Hc Hf)) in Hx.
    + intros [Hc|Hf].
      * unfold CsvFile.map_amount. rewrite Hc. simpl. by apply float_point_preference.
      * rewrite (no_fraction_unchanged args row Hf).
        pose proof (float_point_preference _ Hwf) as H.
        set (a0 := {| dec_comma := false; homebank := false |}).
        change (Py.replace "," "." (amount row)) with (CsvFile.map_amount a0 row).2 in H.
        by rewrite (no_fraction_unchanged a0 row Hf) in H.
Qed.

Lemma comma_preference_breaks_fitid_witness :
  CsvFile.map_fitid ∅ Sample.checking "7" "-12,34" "20230105"
  = Raise (ValueError "could not convert string to float")
  /\ ~ succeeds (main (fun s => s) (Some Sample.configfile) Sample.comma "20230201"
                   Sample.transfer)
  /\ succeeds (CsvFile.map_fitid ∅ Sample.checking "7" "-12.34" "20230105").
Proof.
  pose (r := Sample.row Sample.checking "000000000000000007" "2023-01-05" "2023-01-04"
                        "-12,34" Sample.savings).
  split_and!.
  - apply (comma_preference_breaks_fitid Sample.comma
             (Sample.row Sample.checking "7" "2023-01-05" "2023-01-04" "-12,34"
                         Sample.savings) ∅ Sample.checking "20230105");
      reflexivity.
  - apply (comma_preference_breaks_fitid Sample.comma r ∅ Sample.checking "20230105");
      [reflexivity|reflexivity|]. right. left.
  - apply (comma_preference_breaks_fitid Sample.single_leg
             (Sample.row Sample.checking "7" "2023-01-05" "2023-01-04" "-12,34"
                         Sample.savings) ∅ Sample.checking "20230105");
      [reflexivity|]. left. reflexivity.
Defined.

(** ** Transfer classifier *)

Example preceding_first_occurrence :
  preceding "B" ["A"; "B"; "C"; "B"]%string = ["A"]%string
  /\ preceding "D" ["A"; "B"; "C"]%string = ["A"; "B"; "C"]%string
  /\ position "B" ["A"; "B"; "C"; "B"]%string = Some 1
  /\ position "D" ["A"; "B"; "C"]%string = None.
Proof. repeat split; reflexivity. Qed.

Lemma preceding_cons account a ordering :
  preceding account (a :: ordering) =
  if String.eqb a account then [] else a :: preceding account ordering.
Proof.
  unfold preceding. simpl. destruct (String.eqb_spec a account) as [->|Hne].
  - rewrite decide_True by done. done.
  - rewrite decide_False by done.
    destruct (list_find _ ordering) as [[i x]|]; simpl; done.
Qed.

Lemma preceding_not_elem account ordering : account ∉ preceding account ordering.
Proof.
  induction ordering as [|a l IH]; [unfold preceding; simpl; set_solver|].
  rewrite preceding_cons. destruct (String.eqb_spec a account); set_solver.
Qed.

Lemma main_accounts_loop_spec accs account (s : gset string) :
  Cfg.main_accounts_loop accs account s = s ∪ list_to_set (preceding account accs).
Proof.
  revert s. induction accs as [|a l IH]; intros s.
  - unfold preceding. simpl. set_solver.
  - simpl. rewrite preceding_cons. destruct (String.eqb a account).
    + set_solver.
    + rewrite IH. set_solver.
Qed.

Lemma fold_left_add_spec (l : list string) (s : gset string) :
  fold_left (fun (s : gset string) acc => s ∪ {[acc]}) l s = s ∪ list_to_set l.
Proof.
  revert s. induction l as [|a l IH]; intros s; simpl; [set_solver|].
  rewrite IH. set_solver.
Qed.

Lemma set_fold_add_spec (ordering : list string) (s processed : gset string) :
  set_fold (fun acc (s : gset string) =>
              if bool_decide (acc ∈ ordering) then s else s ∪ {[acc]}) s processed
  = s ∪ filter (fun acc => acc ∉ ordering) processed.
Proof.
  apply (set_fold_ind_L
    (fun (r : gset string) (X : gset string) =>
       r = s ∪ filter (fun acc => acc ∉ ordering) X)).
  - set_solver.
  - intros x X r Hx ->. case_bool_decide; set_solver.
Qed.

Lemma gather_transfer_accounts_eq (cfg : Cfg.t) (processed : gset string)
    (account : string) :
  OfxWriter.gather_transfer_accounts cfg processed account
  = suppressedCounterparties account (Cfg.config_accounts cfg) processed.
Proof.
  unfold OfxWriter.gather_transfer_accounts, suppressedCounterparties.
  rewrite set_fold_add_spec. f_equal.
  case_bool_decide.
  - unfold Cfg.main_accounts. rewrite main_accounts_loop_spec.
    pose proof (preceding_not_elem account (Cfg.config_accounts cfg)).
    set_solver.
  - rewrite fold_left_add_spec. set_solver.
Qed.

(** C5. For every account, configured ordering and set of accounts
    already finalized, [gather_transfer_accounts] returns the set the
    specification describes: when the account occurs in the ordering,
    the accounts before its first occurrence, without the account
    itself; otherwise the whole ordering; in both cases together with
    the finalized accounts that are not in the ordering. *)
Theorem transfer_classifier_spec (cfg : Cfg.t) (processed : gset string)
    (account : string) :
  OfxWriter.gather_transfer_accounts cfg processed account
  = (if bool_decide (account ∈ Cfg.config_accounts cfg)
     then list_to_set (preceding account (Cfg.config_accounts cfg)) ∖ {[account]}
     else list_to_set (Cfg.config_accounts cfg))
    ∪ filter (fun acc => acc ∉ Cfg.config_accounts cfg) processed.
Proof. apply gather_transfer_accounts_eq. Qed.

(** ** Statement assembler *)

Lemma written_app out out' : written (out ++ out') = written out ++ written out'.
Proof. unfold written. apply omap_app. Qed.

Lemma written_transactions l : written (map message_transaction l) = l.
Proof. induction l as [|t l IH]; [done|]. simpl. unfold written in *. simpl. by rewrite IH. Qed.

Lemma scan_transactions_spec args T a txns rec :
  let '(rec', out) := OfxWriter.scan_transactions args T a txns rec in
  out = map message_transaction (filter (kept args T a) txns)
  /\ Ledger.txn_ctr rec' = Ledger.txn_ctr rec + length (filter (on_account a) txns)
  /\ Ledger.txn_processed rec'
     = Ledger.txn_processed rec + length (filter (kept args T a) txns)
  /\ Ledger.txn_skip rec' + Ledger.txn_processed rec'
     = Ledger.txn_skip rec + Ledger.txn_processed rec + length (filter (on_account a) txns).
Proof.
  revert rec. induction txns as [|t txns IH]; intros rec; simpl.
  - repeat split; lia.
  - destruct (String.eqb_spec (Txn.account t) a) as [Ha|Ha].
    + rewrite (filter_cons_True (on_account a)) by done.
      destruct (bool_decide (Txn.accountto t ∈ T) && negb (homebank args)) eqn:Hskip.
      * apply andb_true_iff in Hskip as [Hin Hhb].
        apply bool_decide_eq_true in Hin. apply negb_true_iff in Hhb.
        rewrite (filter_cons_False (kept args T a)) by (unfold kept; tauto).
        match goal with |- context [OfxWriter.scan_transactions _ _ _ _ ?r] =>
          specialize (IH r); destruct (OfxWriter.scan_transactions args T a txns r)
            as [rec' out] end.
        simpl in IH. destruct IH as (-> & H1 & H2 & H3). simpl. repeat split; lia.
      * assert (Hk : kept args T a t).
        { split; [done|]. intros [Hin Hhb].
          rewrite (bool_decide_eq_true_2 _ Hin), Hhb in Hskip. done. }
        rewrite (filter_cons_True (kept args T a)) by done.
        match goal with |- context [OfxWriter.scan_transactions _ _ _ _ ?r] =>
          specialize (IH r); destruct (OfxWriter.scan_transactions args T a txns r)
            as [rec' out] end.
        simpl in IH. destruct IH as (-> & H1 & H2 & H3). simpl. repeat split; lia.
    + rewrite (filter_cons_False (on_account a)) by done.
      rewrite (filter_cons_False (kept args T a)) by (unfold kept; tauto).
      apply IH.
Qed.

Lemma existsb_key accounts accNr :
  existsb (fun kv : string * Ledger.t => String.eqb kv.1 accNr) accounts = true
  <-> accNr ∈ keys accounts.
Proof.
  rewrite existsb_exists. unfold keys. rewrite list_elem_of_fmap. split.
  - intros ([k v] & Hin & Heq). apply String.eqb_eq in Heq. simpl in Heq. subst k.
    exists (accNr, v). split; [done|]. by apply list_elem_of_In.
  - intros ([k v] & -> & Hin). exists (k, v). split; [by apply list_elem_of_In|].
    apply String.eqb_refl.
Qed.

Lemma gather_accounts_spec txns accounts mindate maxdate accounts' mindate' maxdate' :
  OfxWriter.gather_accounts txns accounts mindate maxdate
  = Ok (accounts', mindate', maxdate') ->
  (NoDup (keys accounts) -> NoDup (keys accounts'))
  /\ (forall t, t ∈ txns -> Txn.account t ∈ keys accounts')
  /\ (forall a, a ∈ keys accounts -> a ∈ keys accounts')
  /\ (Forall (fun kv => kv.2 = Ledger.zero) accounts ->
      Forall (fun kv => kv.2 = Ledger.zero) accounts').
Proof.
  revert accounts mindate maxdate.
  induction txns as [|t txns IH]; intros accounts mindate maxdate Hok; simpl in Hok.
  - injection Hok as <- <- <-. split_and!; auto. intros t Ht. by apply elem_of_nil in Ht.
  - destruct (Num.int (Txn.dtposted t)) as [d|]; [|done].
    apply IH in Hok as (Hnd & Hin & Hsub & Hz). clear IH.
    destruct (existsb _ accounts) eqn:Hex.
    + apply existsb_key in Hex. split_and!; auto.
      intros t' Ht'. apply elem_of_cons in Ht' as [->|Ht']; auto.
    + assert (Hfresh : Txn.account t ∉ keys accounts).
      { intros H. apply existsb_key in H. congruence. }
      unfold keys in *. rewrite map_app in *. simpl in *. split_and!.
      * intros H. apply Hnd. apply NoDup_app. split_and!; [done| |apply NoDup_singleton].
        intros x Hx Hx'. apply list_elem_of_singleton in Hx'. by subst x.
      * intros t' Ht'. apply elem_of_cons in Ht' as [->|Ht']; auto.
        apply Hsub. apply elem_of_app. right. by apply list_elem_of_singleton.
      * intros a Ha. apply Hsub. apply elem_of_app. by left.
      * intros H. apply Hz. apply Forall_app. split; [done|]. by constructor.
Qed.

Lemma write_accounts_spec cfg args txns mindate maxdate accounts processed :
  Forall (fun kv => kv.2 = Ledger.zero) accounts ->
  let '(ledger, out, _) :=
    OfxWriter.write_accounts cfg args txns mindate maxdate accounts processed in
  keys ledger = keys accounts
  /\ Forall (counted args txns) ledger
  /\ written out = emitted cfg args txns (keys accounts) processed.
Proof.
  revert processed. induction accounts as [|[a rec] accounts IH]; intros processed Hz.
  - simpl. split_and!; [done|constructor|done].
  - apply Forall_cons in Hz as [Hrec Hz]. simpl in Hrec. subst rec. simpl.
    pose proof (scan_transactions_spec args
      (OfxWriter.gather_transfer_accounts cfg processed a) a txns Ledger.zero) as Hscan.
    destruct (OfxWriter.scan_transactions _ _ a txns Ledger.zero) as [rec' out].
    destruct Hscan as (-> & H1 & H2 & H3).
    specialize (IH (processed ∪ {[a]}) Hz).
    destruct (OfxWriter.write_accounts _ _ _ _ _ accounts _) as [[ledger out'] P'].
    destruct IH as (Hk & Hc & Hw). simpl. split_and!.
    + by rewrite Hk.
    + constructor; [|done]. eexists. simpl. split_and!; [exact H1|exact H2|exact H3].
    + unfold written at 1. simpl. fold (written (map message_transaction
        (filter (kept args (OfxWriter.gather_transfer_accounts cfg processed a) a) txns)
        ++ account_message_end :: out')).
      rewrite written_app, written_transactions. f_equal.
      unfold written at 1. simpl. exact Hw.
Qed.

Lemma run_spec cfg args nowdate txns out ledger :
  OfxWriter.run cfg args nowdate txns = Ok (out, ledger) ->
  NoDup (keys ledger)
  /\ (forall t, t ∈ txns -> Txn.account t ∈ keys ledger)
  /\ Forall (counted args txns) ledger
  /\ written out = emitted cfg args txns (keys ledger) ∅.
Proof.
  unfold OfxWriter.run. intros Hrun.
  destruct (OfxWriter.gather_accounts txns [] 999999999 0)
    as [[[accounts mindate] maxdate]|e] eqn:Hg; [|done].
  simpl in Hrun.
  apply gather_accounts_spec in Hg as (Hnd & Hin & _ & Hz).
  pose proof (write_accounts_spec cfg args txns mindate maxdate accounts ∅ (Hz (Forall_nil_2 _)))
    as Hw.
  destruct (OfxWriter.write_accounts _ _ _ _ _ accounts ∅) as [[ledger' out'] P'].
  injection Hrun as <- <-. destruct Hw as (Hk & Hc & Hw). rewrite Hk.
  split_and!; [apply Hnd, NoDup_nil_2|done|done|].
  unfold written. simpl. rewrite omap_app. simpl. rewrite app_nil_r. exact Hw.
Qed.

Lemma emitted_elem cfg args txns ks processed t :
  t ∈ emitted cfg args txns ks processed ->
  t ∈ txns /\ Txn.account t ∈ ks
  /\ exists P, kept args (OfxWriter.gather_transfer_accounts cfg P (Txn.account t))
                 (Txn.account t) t.
Proof.
  revert processed. induction ks as [|a ks IH]; intros processed Hin; simpl in Hin.
  - by apply elem_of_nil in Hin.
  - apply elem_of_app in Hin as [Hin|Hin].
    + apply list_elem_of_filter in Hin as [Hk Hin]. pose proof Hk as [Ha _].
      split_and!; [done|rewrite Ha; left|]. exists processed. by rewrite Ha.
    + apply IH in Hin as (H1 & H2 & H3). split_and!; [done|by right|done].
Qed.

Lemma elem_emitted cfg args txns ks processed t :
  t ∈ txns -> Txn.account t ∈ ks ->
  (forall P, kept args (OfxWriter.gather_transfer_accounts cfg P (Txn.account t))
               (Txn.account t) t) ->
  t ∈ emitted cfg args txns ks processed.
Proof.
  intros Ht Hks Hk. revert processed.
  induction ks as [|a ks IH]; intros processed; [by apply elem_of_nil in Hks|].
  simpl. apply elem_of_app. destruct (decide (Txn.account t = a)) as [<-|Hne].
  - left. apply list_elem_of_filter. split; [apply Hk|done].
  - right. apply IH. apply elem_of_cons in Hks as [?|?]; done.
Qed.

Lemma emitted_homebank cfg args txns ks processed :
  homebank args = true -> NoDup ks -> (forall t, t ∈ txns -> Txn.account t ∈ ks) ->
  emitted cfg args txns ks processed ≡ₚ txns.
Proof.
  intros Hhb. revert ks txns processed.
  assert (Hkept : forall T a (l : list Txn.t),
            filter (kept args T a) l = filter (on_account a) l).
  { intros T a l. apply list_filter_iff. intros t. unfold kept, on_account.
    rewrite Hhb. naive_solver. }
  assert (Hrest : forall ks a (txns : list Txn.t) processed, a ∉ ks ->
    emitted cfg args (filter (fun t => ~ on_account a t) txns) ks processed
    = emitted cfg args txns ks processed).
  { intros ks. induction ks as [|b ks IH]; intros a txns processed Ha; [done|]. simpl.
    rewrite !Hkept, IH by set_solver. f_equal.
    rewrite list_filter_filter. apply list_filter_iff. intros t. unfold on_account.
    set_solver. }
  intros ks. induction ks as [|a ks IH]; intros txns processed Hnd Hcover.
  - destruct txns as [|t txns]; [done|].
    specialize (Hcover t ltac:(left)). by apply elem_of_nil in Hcover.
  - apply NoDup_cons in Hnd as [Ha Hnd]. simpl. rewrite Hkept.
    rewrite <- (Hrest ks a txns _ Ha).
    rewrite (IH (filter (fun t => ~ on_account a t) txns)); [|done|].
    + apply filter_app_complement.
    + intros t Ht. apply list_elem_of_filter in Ht as [Hna Ht].
      specialize (Hcover t Ht). apply elem_of_cons in Hcover as [?|?]; done.
Qed.

Lemma sum_on_accounts txns ks :
  NoDup ks -> (forall t, t ∈ txns -> Txn.account t ∈ ks) ->
  sum_list_with (fun a => length (filter (on_account a) txns)) ks = length txns.
Proof.
  revert txns. induction ks as [|a ks IH]; intros txns Hnd Hcover.
  - destruct txns as [|t txns]; [done|].
    specialize (Hcover t ltac:(left)). by apply elem_of_nil in Hcover.
  - apply NoDup_cons in Hnd as [Ha Hnd]. simpl.
    rewrite <- (Permutation_length (filter_app_complement (on_account a) txns)).
    rewrite length_app. f_equal.
    rewrite <- (IH (filter (fun t => ~ on_account a t) txns)); [|done|].
    + clear IH Hnd Hcover. induction ks as [|b ks IH]; [done|]. simpl.
      rewrite IH by set_solver. f_equal. f_equal.
      rewrite list_filter_filter. apply list_filter_iff. intros t. unfold on_account.
      set_solver.
    + intros t Ht. apply list_elem_of_filter in Ht as [Hna Ht].
      specialize (Hcover t Ht). apply elem_of_cons in Hcover as [?|?]; done.
Qed.

Lemma position_Some account ordering i :
  position account ordering = Some i ->
  ordering !! i = Some account
  /\ preceding account ordering = take i ordering
  /\ forall j, j < i -> ordering !! j ≠ Some account.
Proof.
  unfold position, preceding.
  destruct (list_find _ ordering) as [[k x]|] eqn:Hfind; [|done].
  simpl. intros [= ->]. apply list_find_Some in Hfind as (Hi & -> & Hfirst).
  split_and!; [done..|]. intros j Hj Hlook. by eapply Hfirst.
Qed.

Lemma suppressed_configured cfg processed a b :
  a ∈ Cfg.config_accounts cfg -> b ∈ Cfg.config_accounts cfg ->
  b ∈ OfxWriter.gather_transfer_accounts cfg processed a
  <-> b ∈ preceding a (Cfg.config_accounts cfg) /\ b ≠ a.
Proof.
  intros Ha Hb. rewrite gather_transfer_accounts_eq. unfold suppressedCounterparties.
  rewrite bool_decide_eq_true_2 by done. set_solver.
Qed.

(** *** Completion of [run] *)

Lemma gather_accounts_total txns accounts mindate maxdate :
  Forall (fun t => is_Some (Num.int (Txn.dtposted t))) txns <->
  succeeds (OfxWriter.gather_accounts txns accounts mindate maxdate).
Proof.
  revert accounts mindate maxdate. induction txns as [|t txns IH];
    intros accounts mindate maxdate; simpl.
  - split; [by eexists|constructor].
  - destruct (Num.int (Txn.dtposted t)) as [d|] eqn:Hd.
    + rewrite Forall_cons, <- IH. rewrite Hd. split; [by intros [_ ?]|]. split; [by eexists|done].
    + split.
      * intros H. apply Forall_cons in H as [[x Hx] _]. congruence.
      * by intros [a Ha].
Qed.

Lemma run_total cfg args nowdate txns :
  Forall (fun t => is_Some (Num.int (Txn.dtposted t))) txns <->
  succeeds (OfxWriter.run cfg args nowdate txns).
Proof.
  rewrite (gather_accounts_total txns [] 999999999 0). unfold OfxWriter.run, succeeds.
  destruct (OfxWriter.gather_accounts txns [] 999999999 0)
    as [[[accounts mindate] maxdate]|e]; simpl.
  - destruct (OfxWriter.write_accounts _ _ _ _ _ accounts ∅) as [[ledger out] P].
    split; intros _; by eexists.
  - split; intros [a Ha]; done.
Qed.

(** C4. In single-leg mode, when a run over transactions that contain both
    legs of a transfer between two accounts of the configured ordering
    completes, the leg on the account whose first occurrence in the
    ordering comes earlier is written and the other leg is not,
    wherever the two legs stand in the input. *)
Theorem single_leg_transfer (cfg : Cfg.t) (args : Args) (nowdate : string)
    (txns : list Txn.t) (out : list message) (ledger : list (string * Ledger.t))
    (A B : string) (i j : nat) (legA legB : Txn.t) :
  homebank args = false ->
  OfxWriter.run cfg args nowdate txns = Ok (out, ledger) ->
  position A (Cfg.config_accounts cfg) = Some i ->
  position B (Cfg.config_accounts cfg) = Some j ->
  i < j ->
  legA ∈ txns -> Txn.account legA = A -> Txn.accountto legA = B ->
  legB ∈ txns -> Txn.account legB = B -> Txn.accountto legB = A ->
  legA ∈ written out /\ legB ∉ written out.
Proof.
  intros Hhb Hrun HA HB Hij HinA HaccA HtoA HinB HaccB HtoB.
  apply run_spec in Hrun as (Hnd & Hcover & _ & ->).
  apply position_Some in HA as (HAi & HpreA & HfirstA).
  apply position_Some in HB as (HBj & HpreB & HfirstB).
  assert (HAin : A ∈ Cfg.config_accounts cfg) by (apply list_elem_of_lookup; eauto).
  assert (HBin : B ∈ Cfg.config_accounts cfg) by (apply list_elem_of_lookup; eauto).
  split.
  - apply elem_emitted; [done|by apply Hcover|].
    intros P. split; [done|]. intros [Hsup _]. rewrite HaccA, HtoA in Hsup.
    apply suppressed_configured in Hsup as [Hsup _]; [|done..].
    rewrite HpreA in Hsup. apply list_elem_of_lookup in Hsup as [k Hk].
    apply lookup_take_Some in Hk as [Hk Hki].
    apply (HfirstB k); [lia|done].
  - intros Hin. apply emitted_elem in Hin as (_ & _ & P & _ & Hk).
    apply Hk. split; [|done]. rewrite HaccB, HtoB.
    apply suppressed_configured; [done..|]. split.
    + rewrite HpreB. apply list_elem_of_lookup. exists i.
      apply lookup_take_Some. split; [done|lia].
    + intros ->. apply (HfirstB i); [lia|done].
Qed.

Lemma single_leg_transfer_witness :
  Sample.leg_checking ∈ written Sample.single_leg_out
  /\ Sample.leg_savings ∉ written Sample.single_leg_out.
Proof.
  apply (single_leg_transfer Sample.cfg Sample.single_leg "20230201" Sample.legs
           Sample.single_leg_out Sample.single_leg_ledger
           Sample.checking Sample.savings 0 1 Sample.leg_checking Sample.leg_savings);
    try reflexivity.
  - constructor.
  - right. left.
  - left.
Defined.

(** C10. When [run] completes, in either mode, every account of a
    transaction has its counters, and for every account the total
    counter is the skip counter plus the processed counter and is the
    number of transactions on that account. *)
Theorem ledger_totals (cfg : Cfg.t) (args : Args) (nowdate : string)
    (txns : list Txn.t) (out : list message) (ledger : list (string * Ledger.t)) :
  OfxWriter.run cfg args nowdate txns = Ok (out, ledger) ->
  (forall t, t ∈ txns -> exists rec, (Txn.account t, rec) ∈ ledger)
  /\ forall account rec, (account, rec) ∈ ledger ->
       Ledger.txn_ctr rec = Ledger.txn_skip rec + Ledger.txn_processed rec
       /\ Ledger.txn_ctr rec
          = length (filter (fun t => Txn.account t = account) txns).
Proof.
  intros Hrun. apply run_spec in Hrun as (_ & Hcover & Hc & _). split.
  - intros t Ht. specialize (Hcover t Ht). unfold keys in Hcover.
    apply list_elem_of_fmap in Hcover as ([a rec] & Ha & Hin). simpl in Ha. subst a.
    by exists rec.
  - intros account rec Hin. rewrite Forall_forall in Hc.
    destruct (Hc _ Hin) as (T & H1 & H2 & H3). simpl in *.
    unfold on_account in *. split; lia.
Qed.

Lemma ledger_totals_witness :
  (forall t, t ∈ Sample.legs -> exists rec, (Txn.account t, rec) ∈ Sample.single_leg_ledger)
  /\ forall account rec, (account, rec) ∈ Sample.single_leg_ledger ->
       Ledger.txn_ctr rec = Ledger.txn_skip rec + Ledger.txn_processed rec
       /\ Ledger.txn_ctr rec
          = length (filter (fun t => Txn.account t = account) Sample.legs).
Proof.
  apply (ledger_totals Sample.cfg Sample.single_leg "20230201" Sample.legs
           Sample.single_leg_out Sample.single_leg_ledger).
  reflexivity.
Defined.

(** C6. In dual-leg mode, when [run] completes, every skip counter is 0,
    the transactions written are the transactions read (each as often
    as it was read, so both legs of every transfer), and the processed
    counters add up to the number of transactions read. *)
Theorem homebank_keeps_all (cfg : Cfg.t) (args : Args) (nowdate : string)
    (txns : list Txn.t) (out : list message) (ledger : list (string * Ledger.t)) :
  homebank args = true ->
  OfxWriter.run cfg args nowdate txns = Ok (out, ledger) ->
  Forall (fun kv => Ledger.txn_skip kv.2 = 0) ledger
  /\ written out ≡ₚ txns
  /\ sum_list_with (fun kv => Ledger.txn_processed kv.2) ledger = length txns.
Proof.
  intros Hhb Hrun. apply run_spec in Hrun as (Hnd & Hcover & Hc & ->).
  assert (Hkept : forall T a, filter (kept args T a) txns = filter (on_account a) txns).
  { intros T a. apply list_filter_iff. intros t. unfold kept, on_account.
    rewrite Hhb. naive_solver. }
  assert (Hp : Forall (fun kv => Ledger.txn_skip kv.2 = 0
      /\ Ledger.txn_processed kv.2 = length (filter (on_account kv.1) txns)) ledger).
  { eapply Forall_impl; [exact Hc|]. intros [a rec] (T & H1 & H2 & H3). simpl in *.
    rewrite Hkept in H2. lia. }
  split_and!.
  - eapply Forall_impl; [exact Hp|]. by intros kv [? _].
  - by apply emitted_homebank.
  - rewrite <- (sum_on_accounts txns (keys ledger) Hnd Hcover).
    clear Hnd Hcover Hc. induction Hp as [|kv l [_ Hkv] _ IH]; [done|].
    simpl. by rewrite Hkv, IH.
Qed.

Lemma homebank_keeps_all_witness :
  Forall (fun kv => Ledger.txn_skip kv.2 = 0) Sample.dual_leg_ledger
  /\ written Sample.dual_leg_out ≡ₚ Sample.legs
  /\ sum_list_with (fun kv => Ledger.txn_processed kv.2) Sample.dual_leg_ledger
     = length Sample.legs.
Proof.
  apply (homebank_keeps_all Sample.cfg Sample.dual_leg "20230201" Sample.legs
           Sample.dual_leg_out Sample.dual_leg_ledger); reflexivity.
Defined.

(** ** Configuration *)

Lemma section_missing (config : ConfigParser) (name : string) :
  (forall kv, kv ∈ config -> kv.1 ≠ name) ->
  Cfg.section config name = Raise (KeyError name).
Proof.
  intros Hmissing. unfold Cfg.section.
  destruct (find _ config) as [kv|] eqn:Hfind; [|done].
  apply find_some in Hfind as [Hin Heq].
  apply String.eqb_eq in Heq. apply list_elem_of_In in Hin.
  by destruct (Hmissing kv Hin).
Qed.

Lemma gather_transfer_accounts_unconfigured (cfg : Cfg.t) (processed : gset string)
    (account : string) :
  Cfg.config_accounts cfg = [] ->
  OfxWriter.gather_transfer_accounts cfg processed account = processed.
Proof.
  intros Hempty. rewrite gather_transfer_accounts_eq. unfold suppressedCounterparties.
  rewrite Hempty. rewrite bool_decide_eq_false_2 by set_solver.
  apply set_eq. intros x. rewrite elem_of_union, elem_of_filter. set_solver.
Qed.

(** C2, as the program has it. A configuration file without the
    [accounts] section makes [Cfg()] raise [KeyError] and the run end
    there, whatever the rows. Without a configuration file the list of
    configured accounts is empty, and with an empty list the classifier
    takes every account for unknown: the suppressed set is the set of
    accounts already finalized in the run. *)
Theorem missing_accounts_section (upper : string -> string) (config : ConfigParser)
    (args : Args) (nowdate : string) (rows : list RawRecord) :
  ((forall kv, kv ∈ config -> kv.1 ≠ "accounts"%string) ->
   main upper (Some config) args nowdate rows = Raise (KeyError "accounts"))
  /\ Cfg.init upper None
     = Ok {| Cfg.config_accounts := []; Cfg.config_overrides := ∅ |}
  /\ (forall cfg processed account,
        Cfg.config_accounts cfg = [] ->
        OfxWriter.gather_transfer_accounts cfg processed account = processed).
Proof.
  split_and!.
  - intros Hmissing. unfold main, Cfg.init.
    by rewrite (section_missing config "accounts" Hmissing).
  - reflexivity.
  - apply gather_transfer_accounts_unconfigured.
Qed.

Lemma missing_accounts_section_witness :
  main (fun s => s) (Some Sample.no_accounts) Sample.single_leg "20230201" Sample.transfer
  = Raise (KeyError "accounts")
  /\ OfxWriter.gather_transfer_accounts
       {| Cfg.config_accounts := []; Cfg.config_overrides := ∅ |}
       {[ Sample.savings ]} Sample.checking
     = {[ Sample.savings ]}.
Proof.
  destruct (missing_accounts_section (fun s => s) Sample.no_accounts Sample.single_leg
              "20230201" Sample.transfer) as (Hmissing & _ & Hunknown).
  split.
  - apply Hmissing. intros kv Hin. apply list_elem_of_singleton in Hin.
    rewrite Hin. discriminate.
  - apply Hunknown. reflexivity.
Defined.

(** The run over a configuration file that lacks the [accounts] section
    fails. *)
Lemma missing_section_aborts :
  ~ succeeds (main (fun s => s) (Some Sample.no_accounts) Sample.single_leg "20230201"
                Sample.transfer).
Proof. intros [out Hout]. discriminate Hout. Qed.

(** So does the run over a configuration file with the [accounts]
    section only, and the run without a configuration file once there is
    a row to map. *)
Example missing_override_aborts :
  main (fun s => s) (Some Sample.no_override) Sample.single_leg "20230201" Sample.transfer
  = Raise (KeyError "override")
  /\ main (fun s => s) None Sample.single_leg "20230201" Sample.transfer
     = Raise (KeyError "force_date_posted").
Proof. split; reflexivity. Qed.

(** With an empty list of configured accounts the second leg of a
    transfer is still dropped in single-leg mode. *)
Example unconfigured_transfer :
  match main (fun s => s) (Some Sample.empty_accounts) Sample.single_leg "20230201"
             Sample.transfer with
  | Ok (out, _) => map Txn.account (written out) = [Sample.savings]
  | Raise _ => False
  end.
Proof. vm_compute. reflexivity. Qed.

(** ** Identifiers *)

Lemma map_fitid_inv seen account volgnr trnamt dtposted fitid seen' :
  CsvFile.map_fitid seen account volgnr trnamt dtposted = Ok (fitid, seen') ->
  exists key n,
    fitid = fitid_of (key, n) /\ seen' = <[key := n]> seen
    /\ n = match seen !! key with Some m => m + 1 | None => 0 end.
Proof.
  unfold CsvFile.map_fitid. destruct (CsvFile.dc_code trnamt) as [dc|e]; [|done].
  simpl. intros [= <- <-]. by eexists _, _.
Qed.

Lemma create_ofx_inv args overrides seen row t seen' :
  CsvFile.create_ofx args overrides seen row = Ok (t, seen') ->
  exists key n,
    Txn.fitid t = fitid_of (key, n) /\ seen' = <[key := n]> seen
    /\ n = match seen !! key with Some m => m + 1 | None => 0 end.
Proof.
  unfold CsvFile.create_ofx. simpl.
  destruct (CsvFile.map_date_posted overrides row) as [[k dtposted]|e]; [|done]. simpl.
  destruct (CsvFile.map_amount args row) as [k' trnamt]. simpl.
  destruct (CsvFile.map_fitid seen _ (serNr row) trnamt dtposted)
    as [[fitid seen1]|e] eqn:Hfit; [|done]. simpl.
  destruct (CsvFile.map_memo_name row) as [[[k'' name] memo]|e]; [|done]. simpl.
  intros [= <- <-]. simpl. by apply map_fitid_inv in Hfit.
Qed.

Lemma read_rows_inv args overrides seen rows txns seen' :
  CsvFile.read_rows args overrides seen rows = Ok (txns, seen') ->
  exists kns : list (string * nat),
    map Txn.fitid txns = map fitid_of kns
    /\ NoDup kns
    /\ (forall key n, (key, n) ∈ kns -> below seen key n /\ seen' !! key ≠ None
                                       /\ ~ below seen' key n)
    /\ (forall key m, seen !! key = Some m -> exists m', seen' !! key = Some m' /\ m <= m').
Proof.
  revert seen txns seen'. induction rows as [|row rows IH]; intros seen txns seen' Hrows.
  - simpl in Hrows. injection Hrows as <- <-. exists []. split_and!.
    + done.
    + constructor.
    + intros key n Hin. by apply elem_of_nil in Hin.
    + intros key m Hm. by exists m.
  - simpl in Hrows.
    destruct (CsvFile.create_ofx args overrides seen row) as [[t seen1]|e] eqn:Hrow; [|done].
    simpl in Hrows.
    destruct (CsvFile.read_rows args overrides seen1 rows) as [[ts seen2]|e] eqn:Hrest;
      [|done].
    simpl in Hrows. injection Hrows as <- <-.
    apply create_ofx_inv in Hrow as (key & n & Hfit & -> & Hn).
    destruct (IH _ _ _ Hrest) as (kns & Hmap & Hnd & Hkns & Hmono). clear IH.
    destruct (Hmono key n (lookup_insert_eq _ _ _)) as (m' & Hm' & Hle).
    exists ((key, n) :: kns). split_and!.
    + simpl. by rewrite Hfit, Hmap.
    + constructor; [|done]. intros Hin. apply Hkns in Hin as (Hb & _).
      unfold below in Hb. rewrite lookup_insert_eq in Hb. lia.
    + intros key' n' Hin. apply elem_of_cons in Hin as [[= -> ->]|Hin].
      * unfold below. rewrite Hm'. split_and!; [|done|lia].
        destruct (seen !! key); lia.
      * destruct (Hkns _ _ Hin) as (Hb & Hsome & Hnb). split_and!; [|done..].
        unfold below in *. destruct (decide (key = key')) as [<-|Hne].
        -- rewrite lookup_insert_eq in Hb. destruct (seen !! key); lia.
        -- by rewrite lookup_insert_ne in Hb.
    + intros key' m Hm. destruct (decide (key = key')) as [<-|Hne].
      * exists m'. split; [done|]. rewrite Hm in Hn. lia.
      * apply Hmono. by rewrite lookup_insert_ne.
Qed.

Lemma append_last_inj (k1 k2 : string) (c1 c2 : ascii) :
  k1 +:+ String c1 "" = k2 +:+ String c2 "" -> k1 = k2 /\ c1 = c2.
Proof.
  revert k2. induction k1 as [|a k1 IH]; intros [|b k2] H; simpl in H.
  - by injection H as <-.
  - injection H as <- H. destruct k2; discriminate H.
  - injection H as <- H. destruct k1; discriminate H.
  - injection H as <- H. destruct (IH _ H) as [<- <-]. done.
Qed.

Lemma fitid_of_inj (k1 k2 : string) (n1 n2 : nat) :
  n1 < 10 -> n2 < 10 -> fitid_of (k1, n1) = fitid_of (k2, n2) -> (k1, n1) = (k2, n2).
Proof.
  intros H1 H2. unfold fitid_of. simpl.
  assert (Hdigit : forall n, n < 10 -> exists c, Py.str_of_nat n = String c ""
                                        /\ n = Z.to_nat (Py.digit_val c)).
  { intros n Hn. do 10 (destruct n as [|n]; [eexists; split; reflexivity|]). lia. }
  destruct (Hdigit n1 H1) as (c1 & -> & ->). destruct (Hdigit n2 H2) as (c2 & -> & ->).
  intros H. by apply append_last_inj in H as [-> ->].
Qed.

(** Identifiers of a run are pairwise distinct as long as no counter
    has reached 10, that is, no key is shared by more than ten rows. *)
Lemma fitid_unique_below_ten args overrides rows txns seen :
  CsvFile.read_rows args overrides ∅ rows = Ok (txns, seen) ->
  (forall key n, seen !! key = Some n -> n < 10) ->
  NoDup (map Txn.fitid txns).
Proof.
  intros Hrows Hsmall.
  destruct (read_rows_inv _ _ _ _ _ _ Hrows) as (kns & -> & Hnd & Hkns & _).
  apply NoDup_fmap_2_strong; [|done].
  intros [k1 n1] [k2 n2] Hin1 Hin2. apply fitid_of_inj.
  - destruct (Hkns _ _ Hin1) as (_ & Hsome & Hnb). unfold below in Hnb.
    destruct (seen !! k1) as [m|] eqn:Hm; [|done]. specialize (Hsmall _ _ Hm). lia.
  - destruct (Hkns _ _ Hin2) as (_ & Hsome & Hnb). unfold below in Hnb.
    destruct (seen !! k2) as [m|] eqn:Hm; [|done]. specialize (Hsmall _ _ Hm). lia.
Qed.

(** C1, at an input where it fails. Eleven rows share the key
    [account + "7"], so the last of them gets the counter 10; a twelfth
    row with the sequence number "71" has the key [account + "71"] and
    the counter 0. Key and counter are joined with nothing in between,
    and both rows get the identifier [account + "710"]. This is the
    least number of rows sharing a key at which identifiers can
    coincide ([fitid_unique_below_ten]). *)
Theorem fitid_collision :
  exists transactions,
    CsvFile.init Sample.single_leg Sample.overrides Sample.repeated = Ok transactions
    /\ Txn.fitid <$> transactions !! 10 = Some "NL01RABO0123456789710"%string
    /\ Txn.fitid <$> transactions !! 11 = Some "NL01RABO0123456789710"%string
    /\ ~ NoDup (map Txn.fitid transactions).
Proof.
  destruct (CsvFile.init Sample.single_leg Sample.overrides Sample.repeated)
    as [transactions|e] eqn:Hinit; vm_compute in Hinit; [|discriminate Hinit].
  injection Hinit as <-. eexists. split; [reflexivity|].
  split; [reflexivity|]. split; [reflexivity|].
  intros Hnd. apply NoDup_ListNoDup in Hnd.
  apply (proj1 (NoDup_nth _ ""%string)) with (i := 10) (j := 11) in Hnd;
    [discriminate Hnd|simpl; lia|simpl; lia|reflexivity].
Qed.

(** * Further properties *)

(** ** The account dictionary and the layout of the file *)

Lemma filter_all {A : Type} (P : A -> Prop) `{!forall x, Decision (P x)} (l : list A) :
  Forall P l -> filter P l = l.
Proof.
  induction 1 as [|x l Hx _ IH]; [done|]. by rewrite filter_cons_True, IH.
Qed.

Lemma first_seen_elem (l : list string) (a : string) : a ∈ first_seen l <-> a ∈ l.
Proof.
  induction l as [|b l IH]; [done|]. simpl.
  rewrite !elem_of_cons, list_elem_of_filter, IH.
  destruct (decide (a = b)); naive_solver.
Qed.

Lemma first_seen_NoDup (l : list string) : NoDup (first_seen l).
Proof.
  induction l as [|b l IH]; [constructor|]. simpl. constructor.
  - rewrite list_elem_of_filter. naive_solver.
  - by apply NoDup_filter.
Qed.

Lemma gather_accounts_keys txns accounts mindate maxdate accounts' mindate' maxdate' :
  OfxWriter.gather_accounts txns accounts mindate maxdate
  = Ok (accounts', mindate', maxdate') ->
  keys accounts'
  = keys accounts
    ++ filter (fun a => a ∉ keys accounts) (first_seen (map Txn.account txns)).
Proof.
  revert accounts mindate maxdate.
  induction txns as [|t txns IH]; intros accounts mindate maxdate Hok; simpl in Hok.
  - injection Hok as <- <- <-. simpl. by rewrite app_nil_r.
  - destruct (Num.int (Txn.dtposted t)) as [d|]; [|done].
    apply IH in Hok. clear IH. rewrite Hok. simpl.
    destruct (existsb _ accounts) eqn:Hex.
    + apply existsb_key in Hex. f_equal.
      rewrite filter_cons_False by naive_solver.
      rewrite list_filter_filter. apply list_filter_iff. intros b. naive_solver.
    + assert (Hfresh : Txn.account t ∉ keys accounts).
      { intros H. apply existsb_key in H. congruence. }
      rewrite filter_cons_True by done.
      unfold keys. rewrite map_app, <- app_assoc. simpl. f_equal. f_equal.
      rewrite list_filter_filter. apply list_filter_iff. intros b.
      rewrite elem_of_app, list_elem_of_singleton. naive_solver.
Qed.

Lemma scan_transactions_overrides args T a txns rec :
  Ledger.nr_overrides (OfxWriter.scan_transactions args T a txns rec).1
  = Ledger.nr_overrides rec
    + sum_list_with Txn.nr_overrides (filter (kept args T a) txns).
Proof.
  revert rec. induction txns as [|t txns IH]; intros rec; simpl; [lia|].
  destruct (String.eqb_spec (Txn.account t) a) as [Ha|Ha].
  - destruct (bool_decide (Txn.accountto t ∈ T) && negb (homebank args)) eqn:Hskip.
    + apply andb_true_iff in Hskip as [Hin Hhb].
      apply bool_decide_eq_true in Hin. apply negb_true_iff in Hhb.
      rewrite (filter_cons_False (kept args T a)) by (unfold kept; tauto).
      by rewrite IH.
    + assert (Hk : kept args T a t).
      { split; [done|]. intros [Hin Hhb].
        rewrite (bool_decide_eq_true_2 _ Hin), Hhb in Hskip. done. }
      rewrite (filter_cons_True (kept args T a)) by done.
      match goal with |- context [OfxWriter.scan_transactions _ _ _ _ ?r] =>
        specialize (IH r); destruct (OfxWriter.scan_transactions args T a txns r)
          as [rec' out] end.
      simpl in *. lia.
  - rewrite (filter_cons_False (kept args T a)) by (unfold kept; tauto). apply IH.
Qed.

Lemma filter_kept_on_account args T a (txns : list Txn.t) :
  filter (on_account a) (filter (kept args T a) txns) = filter (kept args T a) txns.
Proof. apply list_filter_filter_r. by intros t [? _]. Qed.

Lemma filter_kept_length args T a (txns : list Txn.t) :
  length (filter (kept args T a) txns) <= length (filter (on_account a) txns).
Proof.
  rewrite <- (filter_kept_on_account args T a txns).
  rewrite list_filter_filter, <- (list_filter_filter_l (fun t => on_account a t /\ kept args T a t)
    (on_account a)) by naive_solver.
  apply length_filter.
Qed.

Lemma filter_other_account a (l : list Txn.t) :
  Forall (fun t => Txn.account t ≠ a) l -> filter (on_account a) l = [].
Proof.
  induction 1 as [|t l Ht _ IH]; [done|]. by rewrite filter_cons_False.
Qed.

Lemma emitted_accounts cfg args txns ks processed :
  Forall (fun t => Txn.account t ∈ ks) (emitted cfg args txns ks processed).
Proof.
  apply Forall_forall. intros t Ht. by apply emitted_elem in Ht as (_ & ? & _).
Qed.

Lemma flat_map_ext_elem {A B : Type} (f g : A -> list B) (l : list A) :
  (forall x, x ∈ l -> f x = g x) -> flat_map f l = flat_map g l.
Proof.
  induction l as [|x l IH]; intros H; [done|]. simpl.
  rewrite (H x) by left. f_equal. apply IH. intros y Hy. apply H. by right.
Qed.

Lemma write_accounts_layout cfg args txns mindate maxdate accounts processed :
  Forall (fun kv => kv.2 = Ledger.zero) accounts -> NoDup (keys accounts) ->
  let '(ledger, out, processed') :=
    OfxWriter.write_accounts cfg args txns mindate maxdate accounts processed in
  out = flat_map (statement_block mindate maxdate (written out)) (keys accounts)
  /\ Forall (accounted txns (written out)) ledger
  /\ processed' = processed ∪ list_to_set (keys accounts).
Proof.
  revert processed. induction accounts as [|[a rec] accounts IH]; intros processed Hz Hnd.
  - simpl. split_and!; [done|constructor|set_solver].
  - apply Forall_cons in Hz as [Hrec Hz]. simpl in Hrec. subst rec.
    simpl in Hnd. apply NoDup_cons in Hnd as [Ha Hnd].
    pose proof (write_accounts_spec cfg args txns mindate maxdate accounts
                  (processed ∪ {[a]}) Hz) as Hspec.
    specialize (IH (processed ∪ {[a]}) Hz Hnd). simpl.
    set (T := OfxWriter.gather_transfer_accounts cfg processed a).
    pose proof (scan_transactions_spec args T a txns Ledger.zero) as Hscan.
    pose proof (scan_transactions_overrides args T a txns Ledger.zero) as Hov.
    destruct (OfxWriter.scan_transactions args T a txns Ledger.zero) as [rec' blk].
    destruct Hscan as (-> & H1 & H2 & H3). simpl in Hov.
    destruct (OfxWriter.write_accounts _ _ _ _ _ accounts _) as [[ledger out'] P'].
    destruct Hspec as (Hk & _ & Hw). destruct IH as (Hout & Hacc & ->).
    set (blk := filter (kept args T a) txns) in *.
    assert (Hwritten : written (account_message_start a mindate maxdate
                                :: map message_transaction blk
                                ++ account_message_end :: out')
                       = blk ++ written out').
    { unfold written at 1. simpl.
      fold (written (map message_transaction blk ++ account_message_end :: out')).
      rewrite written_app, written_transactions. done. }
    rewrite Hwritten.
    assert (Hrest : Forall (fun t => Txn.account t ∈ keys accounts) (written out')).
    { rewrite Hw. apply emitted_accounts. }
    assert (Hblk_a : filter (on_account a) (blk ++ written out') = blk).
    { rewrite filter_app. subst blk. rewrite filter_kept_on_account.
      rewrite filter_other_account; [by rewrite app_nil_r|].
      eapply Forall_impl; [exact Hrest|]. simpl. intros t Ht Heq.
      by rewrite Heq in Ht. }
    assert (Hblk_b : forall b, b ∈ keys accounts ->
              filter (on_account b) (blk ++ written out')
              = filter (on_account b) (written out')).
    { intros b Hb. rewrite filter_app. rewrite (filter_other_account b blk); [done|].
      apply Forall_forall. intros t Ht. apply list_elem_of_filter in Ht as [[Hta _] _].
      intros Heq. unfold on_account in Hta. congruence. }
    split_and!.
    + simpl. unfold statement_block at 1. rewrite Hblk_a. simpl. f_equal.
      rewrite <- app_assoc. simpl. f_equal. f_equal.
      rewrite Hout at 1. apply flat_map_ext_elem. intros b Hb.
      unfold statement_block. by rewrite Hblk_b.
    + constructor.
      * unfold accounted. simpl. rewrite Hblk_a. simpl in *.
        pose proof (filter_kept_length args T a txns). fold blk in H.
        split_and!; lia.
      * apply Forall_forall. intros [b recb] Hin.
        rewrite Forall_forall in Hacc. specialize (Hacc _ Hin).
        unfold accounted in *. simpl in *. rewrite Hblk_b; [done|].
        rewrite <- Hk. unfold keys. apply list_elem_of_fmap. by exists (b, recb).
    + set_solver.
Qed.

Lemma gather_accounts_dates txns accounts mindate maxdate accounts' mindate' maxdate' :
  OfxWriter.gather_accounts txns accounts mindate maxdate
  = Ok (accounts', mindate', maxdate') ->
  (mindate' <= mindate)%Z /\ (maxdate <= maxdate')%Z
  /\ (forall t, t ∈ txns ->
        exists d, Num.int (Txn.dtposted t) = Some d /\ (mindate' <= d <= maxdate')%Z)
  /\ (mindate' = mindate \/ exists t, t ∈ txns /\ Num.int (Txn.dtposted t) = Some mindate')
  /\ (maxdate' = maxdate \/ exists t, t ∈ txns /\ Num.int (Txn.dtposted t) = Some maxdate').
Proof.
  revert accounts mindate maxdate.
  induction txns as [|t txns IH]; intros accounts mindate maxdate Hok; simpl in Hok.
  - injection Hok as <- <- <-. split_and!; [lia|lia| |by left|by left].
    intros t Ht. by apply elem_of_nil in Ht.
  - destruct (Num.int (Txn.dtposted t)) as [d|] eqn:Hd; [|done].
    apply IH in Hok as (Hmin & Hmax & Hall & Hlo & Hhi). clear IH.
    assert (Hmin' : (mindate' <= mindate /\ mindate' <= d)%Z).
    { destruct (Z.ltb_spec d mindate); lia. }
    assert (Hmax' : (maxdate <= maxdate' /\ d <= maxdate')%Z).
    { rewrite Z.gtb_ltb in Hmax. destruct (Z.ltb_spec maxdate d); lia. }
    split_and!; [lia|lia| | |].
    + intros t' Ht'. apply elem_of_cons in Ht' as [->|Ht']; [|by apply Hall].
      exists d. split; [done|lia].
    + destruct Hlo as [Hlo|(t' & Ht' & Hlo)].
      * destruct (Z.ltb_spec d mindate); [|by left].
        right. exists t. split; [left|congruence].
      * right. exists t'. split; [by right|done].
    + destruct Hhi as [Hhi|(t' & Ht' & Hhi)].
      * rewrite Z.gtb_ltb in Hhi. destruct (Z.ltb_spec maxdate d); [|by left].
        right. exists t. split; [left|congruence].
      * right. exists t'. split; [by right|done].
Qed.

Lemma written_frame nowdate out :
  written (message_header nowdate :: out ++ [message_footer]) = written out.
Proof.
  unfold written. simpl. rewrite omap_app. simpl. by rewrite app_nil_r.
Qed.

Lemma run_layout cfg args nowdate txns out ledger :
  OfxWriter.run cfg args nowdate txns = Ok (out, ledger) ->
  exists accounts mindate maxdate,
    OfxWriter.gather_accounts txns [] 999999999 0 = Ok (accounts, mindate, maxdate)
    /\ out = message_header nowdate
             :: flat_map (statement_block mindate maxdate (written out))
                         (first_seen (map Txn.account txns))
             ++ [message_footer]
    /\ keys ledger = first_seen (map Txn.account txns)
    /\ Forall (accounted txns (written out)) ledger.
Proof.
  unfold OfxWriter.run. intros Hrun.
  destruct (OfxWriter.gather_accounts txns [] 999999999 0)
    as [[[accounts mindate] maxdate]|e] eqn:Hg; [|done].
  simpl in Hrun. exists accounts, mindate, maxdate. split; [done|].
  pose proof (gather_accounts_keys _ _ _ _ _ _ _ Hg) as Hkeys. simpl in Hkeys.
  rewrite filter_all in Hkeys by (apply Forall_forall; set_solver).
  apply gather_accounts_spec in Hg as (_ & _ & _ & Hz).
  pose proof (write_accounts_spec cfg args txns mindate maxdate accounts ∅
                (Hz (Forall_nil_2 _))) as Hspec.
  pose proof (write_accounts_layout cfg args txns mindate maxdate accounts ∅
                (Hz (Forall_nil_2 _))) as Hlay.
  rewrite Hkeys in Hlay. specialize (Hlay (first_seen_NoDup _)).
  destruct (OfxWriter.write_accounts _ _ _ _ _ accounts ∅) as [[ledger' out'] P'].
  injection Hrun as <- <-. destruct Hspec as (Hk & _ & _).
  destruct Hlay as (Hout & Hacc & _). rewrite written_frame.
  split_and!; [by rewrite <- Hout|by rewrite Hk|done].
Qed.

(** *** Which transactions a block holds *)

Lemma emitted_at cfg args txns pre a post processed :
  NoDup (pre ++ a :: post) ->
  filter (on_account a) (emitted cfg args txns (pre ++ a :: post) processed)
  = filter (kept args (OfxWriter.gather_transfer_accounts cfg
                         (processed ∪ list_to_set pre) a) a) txns.
Proof.
  revert processed. induction pre as [|b pre IH]; intros processed Hnd; simpl.
  - apply NoDup_cons in Hnd as [Ha _]. rewrite filter_app, filter_kept_on_account.
    rewrite filter_other_account.
    + rewrite app_nil_r.
      by rewrite (right_id_L ∅ (∪) processed).
    + eapply Forall_impl; [apply emitted_accounts|]. simpl. intros t Ht Heq.
      by rewrite Heq in Ht.
  - simpl in Hnd. apply NoDup_cons in Hnd as [Hb Hnd].
    rewrite filter_app, (IH _ Hnd). rewrite filter_other_account.
    + by rewrite (assoc_L (∪) processed {[b]} (list_to_set pre)).
    + apply Forall_forall. intros t Ht. apply list_elem_of_filter in Ht as [[Ht _] _].
      intros Heq. apply Hb. rewrite <- Ht, Heq. set_solver.
Qed.

Lemma written_iff cfg args nowdate txns out ledger pre post t :
  OfxWriter.run cfg args nowdate txns = Ok (out, ledger) ->
  first_seen (map Txn.account txns) = pre ++ Txn.account t :: post ->
  t ∈ written out
  <-> t ∈ txns
      /\ kept args (OfxWriter.gather_transfer_accounts cfg (list_to_set pre)
                      (Txn.account t)) (Txn.account t) t.
Proof.
  intros Hrun Hsplit.
  destruct (run_layout _ _ _ _ _ _ Hrun) as (accounts & mn & mx & _ & _ & Hk & _).
  apply run_spec in Hrun as (Hnd & _ & _ & Hw). rewrite Hw, Hk in *.
  rewrite Hsplit in *.
  transitivity (t ∈ filter (on_account (Txn.account t))
                  (emitted cfg args txns (pre ++ Txn.account t :: post) ∅)).
  { rewrite list_elem_of_filter. unfold on_account. naive_solver. }
  rewrite (emitted_at _ _ _ _ _ _ _ Hnd), list_elem_of_filter.
  replace (∅ ∪ list_to_set pre : gset string) with (list_to_set pre : gset string)
    by set_solver.
  naive_solver.
Qed.

Lemma first_seen_split (l l1 l2 : list string) (a b : string) :
  l = l1 ++ a :: l2 -> b ∉ l1 ->
  exists m1 m2, first_seen l = m1 ++ a :: m2 /\ b ∉ m1.
Proof.
  revert l. induction l1 as [|x l1 IH]; intros l -> Hb; simpl.
  - by exists [], (filter (fun c => c ≠ a) (first_seen l2)).
  - apply not_elem_of_cons in Hb as [Hbx Hb].
    destruct (IH _ eq_refl Hb) as (m1 & m2 & -> & Hm1).
    destruct (decide (a = x)) as [->|Hax].
    + exists []. eexists. split; [reflexivity|apply not_elem_of_nil].
    + exists (x :: filter (fun c => c ≠ x) m1), (filter (fun c => c ≠ x) m2).
      rewrite filter_app, filter_cons_True by done. split; [done|].
      rewrite not_elem_of_cons, list_elem_of_filter. naive_solver.
Qed.

Lemma first_seen_order (l : list string) (a b : string) (i j : nat) :
  position a l = Some i -> position b l = Some j -> i < j ->
  exists pre mid post, first_seen l = pre ++ a :: mid ++ b :: post.
Proof.
  intros Ha Hb Hij.
  apply position_Some in Ha as (Hai & _ & _).
  apply position_Some in Hb as (Hbj & _ & Hfirst).
  assert (Hne : a ≠ b).
  { intros ->. apply (Hfirst i Hij Hai). }
  destruct (first_seen_split l (take i l) (drop (S i) l) a b) as (m1 & m2 & Hfs & Hm1).
  - by rewrite take_drop_middle.
  - intros Hin. apply list_elem_of_lookup in Hin as [k Hk].
    apply lookup_take_Some in Hk as [Hk Hki]. apply (Hfirst k); [lia|done].
  - assert (Hin : b ∈ first_seen l).
    { apply first_seen_elem, list_elem_of_lookup. eauto. }
    rewrite Hfs in Hin. apply elem_of_app in Hin as [Hin|Hin]; [done|].
    apply elem_of_cons in Hin as [Hin|Hin]; [congruence|].
    apply list_elem_of_split in Hin as (mid & post & ->).
    by exists m1, mid, post.
Qed.

Lemma preceding_elem (account x : string) (ordering : list string) :
  x ∈ preceding account ordering -> x ∈ ordering.
Proof.
  induction ordering as [|a l IH]; [done|]. rewrite preceding_cons.
  destruct (String.eqb a account); [by intros ?%elem_of_nil|].
  rewrite !elem_of_cons. naive_solver.
Qed.

Lemma unknown_suppresses_configured cfg processed u a :
  u ∉ Cfg.config_accounts cfg -> a ∈ Cfg.config_accounts cfg ->
  a ∈ OfxWriter.gather_transfer_accounts cfg processed u.
Proof.
  intros Hu Ha. rewrite gather_transfer_accounts_eq. unfold suppressedCounterparties.
  rewrite bool_decide_eq_false_2 by done. set_solver.
Qed.

Lemma suppressed_unconfigured cfg processed a u :
  u ∉ Cfg.config_accounts cfg ->
  u ∈ OfxWriter.gather_transfer_accounts cfg processed a <-> u ∈ processed.
Proof.
  intros Hu. rewrite gather_transfer_accounts_eq. unfold suppressedCounterparties.
  rewrite elem_of_union, elem_of_filter.
  assert (Hpre : u ∉ preceding a (Cfg.config_accounts cfg)).
  { intros Hin. by apply preceding_elem in Hin. }
  case_bool_decide; set_solver.
Qed.

(** ** What [run] writes *)

(** X1. The OFX file that [run] writes is the header, one statement
    block for each distinct account of the transactions, in the order
    in which the accounts first appear among them, and the footer. A
    block is the account start, the written transactions of the account
    and the account end, and all blocks carry the same two dates. The
    counters are kept in the same order of accounts. *)
Theorem ofx_file_layout (cfg : Cfg.t) (args : Args) (nowdate : string)
    (txns : list Txn.t) (out : list message) (ledger : list (string * Ledger.t)) :
  OfxWriter.run cfg args nowdate txns = Ok (out, ledger) ->
  exists mindate maxdate,
    out = message_header nowdate
          :: flat_map (statement_block mindate maxdate (written out))
                      (first_seen (map Txn.account txns))
          ++ [message_footer]
    /\ map fst ledger = first_seen (map Txn.account txns).
Proof.
  intros Hrun. destruct (run_layout _ _ _ _ _ _ Hrun)
    as (accounts & mindate & maxdate & _ & Hout & Hk & _).
  by exists mindate, maxdate.
Qed.

Lemma ofx_file_layout_witness :
  exists mindate maxdate,
    Sample.single_leg_out
    = message_header "20230201"
      :: flat_map (statement_block mindate maxdate (written Sample.single_leg_out))
                  (first_seen (map Txn.account Sample.legs))
      ++ [message_footer]
    /\ map fst Sample.single_leg_ledger = first_seen (map Txn.account Sample.legs).
Proof.
  apply (ofx_file_layout Sample.cfg Sample.single_leg "20230201" Sample.legs
           Sample.single_leg_out Sample.single_leg_ledger).
  reflexivity.
Defined.

(** X2. The two dates of a statement bound the posted dates of all
    transactions read, of whatever account and whether written or not;
    each of them is the posted date of one of the transactions, unless
    it still is the value the search starts from, 999999999 for the
    lower and 0 for the upper date. *)
Theorem statement_date_range (cfg : Cfg.t) (args : Args) (nowdate : string)
    (txns : list Txn.t) (out : list message) (ledger : list (string * Ledger.t))
    (account : string) (mindate maxdate : Z) :
  OfxWriter.run cfg args nowdate txns = Ok (out, ledger) ->
  account_message_start account mindate maxdate ∈ out ->
  (forall t, t ∈ txns ->
     exists d, Num.int (Txn.dtposted t) = Some d /\ (mindate <= d <= maxdate)%Z)
  /\ (mindate = 999999999%Z
      \/ exists t, t ∈ txns /\ Num.int (Txn.dtposted t) = Some mindate)
  /\ (maxdate = 0%Z
      \/ exists t, t ∈ txns /\ Num.int (Txn.dtposted t) = Some maxdate).
Proof.
  intros Hrun Hin. destruct (run_layout _ _ _ _ _ _ Hrun)
    as (accounts & mn & mx & Hg & Hout & _ & _).
  assert (mindate = mn /\ maxdate = mx) as [-> ->].
  { rewrite Hout in Hin. apply elem_of_cons in Hin as [Hin|Hin]; [done|].
    apply elem_of_app in Hin as [Hin|Hin];
      [|by apply list_elem_of_singleton in Hin].
    apply list_elem_of_In, in_flat_map in Hin as (b & _ & Hin).
    apply list_elem_of_In in Hin. unfold statement_block in Hin.
    apply elem_of_cons in Hin as [[= _ -> ->]|Hin]; [done|].
    apply elem_of_app in Hin as [Hin|Hin].
    - by apply list_elem_of_fmap in Hin as (t & Ht & _).
    - by apply list_elem_of_singleton in Hin. }
  apply gather_accounts_dates in Hg as (_ & _ & Hall & Hlo & Hhi). done.
Qed.

Lemma statement_date_range_witness :
  (forall t, t ∈ Sample.legs ->
     exists d, Num.int (Txn.dtposted t) = Some d /\ (20230104 <= d <= 20230105)%Z)
  /\ (20230104%Z = 999999999%Z
      \/ exists t, t ∈ Sample.legs /\ Num.int (Txn.dtposted t) = Some 20230104%Z)
  /\ (20230105%Z = 0%Z
      \/ exists t, t ∈ Sample.legs /\ Num.int (Txn.dtposted t) = Some 20230105%Z).
Proof.
  apply (statement_date_range Sample.cfg Sample.single_leg "20230201" Sample.legs
           Sample.single_leg_out Sample.single_leg_ledger Sample.savings).
  - reflexivity.
  - right. left.
Defined.

(** X3. The counters of an account describe its block: [txn_processed]
    is the number of transactions in the block, [txn_skip] the number
    of transactions of the account that are left out of it, and
    [nr_overrides] the sum of the override counts of the transactions
    in the block, those left out not counted. *)
Theorem ledger_describes_blocks (cfg : Cfg.t) (args : Args) (nowdate : string)
    (txns : list Txn.t) (out : list message) (ledger : list (string * Ledger.t))
    (account : string) (rec : Ledger.t) :
  OfxWriter.run cfg args nowdate txns = Ok (out, ledger) ->
  (account, rec) ∈ ledger ->
  let read := filter (fun t => Txn.account t = account) txns in
  let block := filter (fun t => Txn.account t = account) (written out) in
  Ledger.txn_processed rec = length block
  /\ Ledger.txn_skip rec = length read - length block
  /\ Ledger.nr_overrides rec = sum_list_with Txn.nr_overrides block.
Proof.
  intros Hrun Hin. destruct (run_layout _ _ _ _ _ _ Hrun)
    as (accounts & mn & mx & _ & _ & _ & Hacc).
  rewrite Forall_forall in Hacc. destruct (Hacc _ Hin) as (_ & H2 & H3 & H4).
  simpl in *. done.
Qed.

Lemma ledger_describes_blocks_witness :
  let rec := {| Ledger.txn_ctr := 1; Ledger.txn_skip := 1; Ledger.txn_processed := 0;
                Ledger.nr_overrides := 0 |} in
  let read := filter (fun t => Txn.account t = Sample.savings) Sample.legs in
  let block :=
    filter (fun t => Txn.account t = Sample.savings) (written Sample.single_leg_out) in
  Ledger.txn_processed rec = length block
  /\ Ledger.txn_skip rec = length read - length block
  /\ Ledger.nr_overrides rec = sum_list_with Txn.nr_overrides block.
Proof.
  apply (ledger_describes_blocks Sample.cfg Sample.single_leg "20230201" Sample.legs
           Sample.single_leg_out Sample.single_leg_ledger Sample.savings).
  - reflexivity.
  - left.
Defined.

Lemma emitted_outside cfg args (txns : list Txn.t) ks processed a :
  a ∉ ks ->
  emitted cfg args (filter (fun t => ~ on_account a t) txns) ks processed
  = emitted cfg args txns ks processed.
Proof.
  revert processed. induction ks as [|b ks IH]; intros processed Ha; [done|]. simpl.
  rewrite IH by set_solver. f_equal.
  rewrite list_filter_filter. apply list_filter_iff. intros t. unfold kept, on_account.
  set_solver.
Qed.

Lemma emitted_submseteq cfg args txns ks processed :
  NoDup ks -> emitted cfg args txns ks processed ⊆+ txns.
Proof.
  intros Hnd. revert txns processed.
  induction Hnd as [|a ks Ha _ IH]; intros txns processed; simpl.
  - apply submseteq_nil_l.
  - rewrite <- (emitted_outside cfg args txns ks _ a Ha).
    rewrite <- (filter_app_complement (on_account a) txns) at 3.
    apply submseteq_app; [|apply IH].
    rewrite <- filter_kept_on_account. apply sublist_submseteq.
    rewrite list_filter_filter, <- (list_filter_filter_l
      (fun t => on_account a t /\ kept args _ a t) (on_account a)) by naive_solver.
    apply sublist_filter.
Qed.

Lemma emitted_block_sublist cfg args txns ks processed a :
  NoDup ks ->
  filter (on_account a) (emitted cfg args txns ks processed) `sublist_of` txns.
Proof.
  intros Hnd. revert processed.
  induction Hnd as [|b ks Hb _ IH]; intros processed; simpl.
  - apply sublist_nil_l.
  - rewrite filter_app. destruct (decide (a = b)) as [->|Hne].
    + rewrite filter_kept_on_account, filter_other_account.
      * rewrite app_nil_r. apply sublist_filter.
      * eapply Forall_impl; [apply emitted_accounts|]. simpl. intros t Ht Heq.
        by rewrite Heq in Ht.
    + rewrite (filter_other_account a (filter _ txns)); [apply IH|].
      apply Forall_forall. intros t Ht. apply list_elem_of_filter in Ht as [[Ht _] _].
      unfold on_account in Ht. congruence.
Qed.

Lemma run_accounting cfg args nowdate txns out ledger :
  OfxWriter.run cfg args nowdate txns = Ok (out, ledger) ->
  length (written out) + sum_list_with (fun kv => Ledger.txn_skip kv.2) ledger
  = length txns.
Proof.
  intros Hrun. destruct (run_layout _ _ _ _ _ _ Hrun)
    as (accounts & mn & mx & _ & _ & _ & Hacc).
  apply run_spec in Hrun as (Hnd & Hcover & Hc & Hw).
  assert (Hcover' : forall t, t ∈ written out -> Txn.account t ∈ keys ledger).
  { rewrite Hw. intros t Ht. by apply emitted_elem in Ht as (_ & ? & _). }
  rewrite <- (sum_on_accounts (written out) (keys ledger) Hnd Hcover').
  rewrite <- (sum_on_accounts txns (keys ledger) Hnd Hcover).
  clear Hnd Hcover Hcover' Hw. induction ledger as [|[a rec] ledger IH]; [done|].
  apply Forall_cons in Hacc as [(_ & Ha2 & _) Hacc].
  apply Forall_cons in Hc as [(T & Hc1 & _ & Hc3) Hc].
  specialize (IH Hc Hacc). unfold keys in *. simpl in *. lia.
Qed.

(** X4. [run] writes no transaction that it did not read and none more
    often than it was read; the transactions of a block stand in the
    order of the input; and the number of transactions written and the
    skip counters of the accounts add up to the number of transactions
    read. *)
Theorem written_conservation (cfg : Cfg.t) (args : Args) (nowdate : string)
    (txns : list Txn.t) (out : list message) (ledger : list (string * Ledger.t)) :
  OfxWriter.run cfg args nowdate txns = Ok (out, ledger) ->
  written out ⊆+ txns
  /\ (forall account,
        filter (fun t => Txn.account t = account) (written out) `sublist_of` txns)
  /\ length (written out) + sum_list_with (fun kv => Ledger.txn_skip kv.2) ledger
     = length txns.
Proof.
  intros Hrun. pose proof (run_accounting _ _ _ _ _ _ Hrun) as Hsum.
  apply run_spec in Hrun as (Hnd & _ & _ & Hw). split_and!; [| |done].
  - rewrite Hw. by apply emitted_submseteq.
  - intros account. rewrite Hw. by apply (emitted_block_sublist _ _ _ _ _ account).
Qed.

Lemma written_conservation_witness :
  written Sample.single_leg_out ⊆+ Sample.legs
  /\ (forall account,
        filter (fun t => Txn.account t = account) (written Sample.single_leg_out)
        `sublist_of` Sample.legs)
  /\ length (written Sample.single_leg_out)
     + sum_list_with (fun kv => Ledger.txn_skip kv.2) Sample.single_leg_ledger
     = length Sample.legs.
Proof.
  apply (written_conservation Sample.cfg Sample.single_leg "20230201" Sample.legs
           Sample.single_leg_out Sample.single_leg_ledger).
  reflexivity.
Defined.

(** X5. The closing warning about accounts missing from the
    configuration is printed exactly when the transactions have more
    distinct accounts than the configured ordering has entries. *)
Theorem warning_counts_accounts (cfg : Cfg.t) (args : Args) (txns : list Txn.t)
    (warning : bool) :
  run_warning cfg args txns = Ok warning ->
  warning = true
  <-> length (Cfg.config_accounts cfg) < length (first_seen (map Txn.account txns)).
Proof.
  unfold run_warning. intros Hrun.
  destruct (OfxWriter.gather_accounts txns [] 999999999 0)
    as [[[accounts mindate] maxdate]|e] eqn:Hg; [|done].
  simpl in Hrun.
  pose proof (gather_accounts_keys _ _ _ _ _ _ _ Hg) as Hkeys. simpl in Hkeys.
  rewrite filter_all in Hkeys by (apply Forall_forall; set_solver).
  apply gather_accounts_spec in Hg as (_ & _ & _ & Hz).
  pose proof (write_accounts_layout cfg args txns mindate maxdate accounts ∅
                (Hz (Forall_nil_2 _))) as Hlay.
  rewrite Hkeys in Hlay. specialize (Hlay (first_seen_NoDup _)).
  destruct (OfxWriter.write_accounts _ _ _ _ _ accounts ∅) as [[ledger' out'] P'].
  destruct Hlay as (_ & _ & ->). injection Hrun as <-.
  rewrite (left_id_L ∅ (∪)), size_list_to_set by apply first_seen_NoDup.
  apply bool_decide_eq_true.
Qed.

Lemma warning_counts_accounts_witness :
  true = true
  <-> length (Cfg.config_accounts Cases.checking_only)
      < length (first_seen (map Txn.account Sample.legs)).
Proof.
  apply (warning_counts_accounts Cases.checking_only Sample.single_leg Sample.legs true).
  reflexivity.
Defined.

Lemma preceding_antisymmetric (a b : string) (ordering : list string) :
  a ∈ ordering -> b ∈ ordering -> a ≠ b ->
  b ∈ preceding a ordering <-> a ∉ preceding b ordering.
Proof.
  intros Ha Hb Hne. induction ordering as [|x l IH]; [by apply elem_of_nil in Ha|].
  rewrite !preceding_cons.
  destruct (String.eqb_spec x a) as [Hxa|Hxa]; destruct (String.eqb_spec x b) as [Hxb|Hxb].
  - congruence.
  - rewrite elem_of_nil, elem_of_cons. naive_solver.
  - rewrite elem_of_cons, elem_of_nil. naive_solver.
  - apply elem_of_cons in Ha as [?|Ha]; [done|].
    apply elem_of_cons in Hb as [?|Hb]; [done|].
    rewrite !elem_of_cons. specialize (IH Ha Hb). naive_solver.
Qed.

(** X6. Of two different configured accounts exactly one suppresses
    the other: the second is in the suppressed set of the first exactly
    when the first is not in the suppressed set of the second, whatever
    accounts are already processed. *)
Theorem classifier_antisymmetric (cfg : Cfg.t) (processed processed' : gset string)
    (a b : string) :
  a ∈ Cfg.config_accounts cfg -> b ∈ Cfg.config_accounts cfg -> a ≠ b ->
  b ∈ OfxWriter.gather_transfer_accounts cfg processed a
  <-> a ∉ OfxWriter.gather_transfer_accounts cfg processed' b.
Proof.
  intros Ha Hb Hne.
  rewrite (suppressed_configured cfg processed a b Ha Hb).
  rewrite (suppressed_configured cfg processed' b a Hb Ha).
  pose proof (preceding_antisymmetric a b _ Ha Hb Hne). naive_solver.
Qed.

Lemma classifier_antisymmetric_witness :
  Sample.savings ∈ OfxWriter.gather_transfer_accounts Sample.cfg ∅ Sample.checking
  <-> Sample.checking ∉ OfxWriter.gather_transfer_accounts Sample.cfg ∅ Sample.savings.
Proof.
  apply (classifier_antisymmetric Sample.cfg ∅ ∅ Sample.checking Sample.savings).
  - left.
  - right. left.
  - discriminate.
Defined.

(** X7. In single-leg mode, of the two legs of a transfer between two
    accounts that are both missing from the configuration, the leg on
    the account that appears first among the transactions is written
    and the other leg is not. *)
Theorem unconfigured_pair_once (cfg : Cfg.t) (args : Args) (nowdate : string)
    (txns : list Txn.t) (out : list message) (ledger : list (string * Ledger.t))
    (U V : string) (i j : nat) (legU legV : Txn.t) :
  homebank args = false ->
  OfxWriter.run cfg args nowdate txns = Ok (out, ledger) ->
  U ∉ Cfg.config_accounts cfg -> V ∉ Cfg.config_accounts cfg ->
  position U (map Txn.account txns) = Some i ->
  position V (map Txn.account txns) = Some j ->
  i < j ->
  legU ∈ txns -> Txn.account legU = U -> Txn.accountto legU = V ->
  legV ∈ txns -> Txn.account legV = V -> Txn.accountto legV = U ->
  legU ∈ written out /\ legV ∉ written out.
Proof.
  intros Hhb Hrun HU HV Hi Hj Hij HinU HaU HtU HinV HaV HtV.
  destruct (first_seen_order _ _ _ _ _ Hi Hj Hij) as (pre & mid & post & Hfs).
  pose proof (first_seen_NoDup (map Txn.account txns)) as Hnd. rewrite Hfs in Hnd.
  split.
  - apply (written_iff cfg args nowdate txns out ledger pre (mid ++ V :: post));
      [done|by rewrite HaU|]. split; [done|]. unfold kept. rewrite HaU, HtU.
    split; [done|]. intros [Hsup _].
    apply suppressed_unconfigured in Hsup; [|done].
    apply elem_of_list_to_set in Hsup. apply NoDup_app in Hnd as (_ & Hnd & _).
    apply (Hnd V Hsup). set_solver.
  - rewrite (written_iff cfg args nowdate txns out ledger (pre ++ U :: mid) post);
      [|done|by rewrite HaV, <- app_assoc].
    intros [_ [_ Hk]]. apply Hk. split; [|done]. rewrite HaV, HtV.
    apply suppressed_unconfigured; [done|]. set_solver.
Qed.

Lemma unconfigured_pair_once_witness :
  Sample.leg_savings ∈ written Cases.unconfigured_out
  /\ Sample.leg_checking ∉ written Cases.unconfigured_out.
Proof.
  apply (unconfigured_pair_once Cases.unconfigured Sample.single_leg "20230201" Sample.legs
           Cases.unconfigured_out Cases.unconfigured_ledger
           Sample.savings Sample.checking 0 1 Sample.leg_savings Sample.leg_checking);
    try reflexivity.
  - apply not_elem_of_nil.
  - apply not_elem_of_nil.
  - lia.
  - left.
  - right. left.
Defined.

(** X8. In single-leg mode, of the two legs of a transfer between a
    configured account and an account missing from the configuration,
    the leg on the missing account is never written. The leg on the
    configured account is written when that account appears first among
    the transactions; when the missing account appears first, neither
    leg is written. *)
Theorem configured_unconfigured_transfer (cfg : Cfg.t) (args : Args) (nowdate : string)
    (txns : list Txn.t) (out : list message) (ledger : list (string * Ledger.t))
    (A U : string) (i j : nat) (legA legU : Txn.t) :
  homebank args = false ->
  OfxWriter.run cfg args nowdate txns = Ok (out, ledger) ->
  A ∈ Cfg.config_accounts cfg -> U ∉ Cfg.config_accounts cfg ->
  position A (map Txn.account txns) = Some i ->
  position U (map Txn.account txns) = Some j ->
  legA ∈ txns -> Txn.account legA = A -> Txn.accountto legA = U ->
  legU ∈ txns -> Txn.account legU = U -> Txn.accountto legU = A ->
  (legU ∉ written out)
  /\ (i < j -> legA ∈ written out)
  /\ (j < i -> legA ∉ written out).
Proof.
  intros Hhb Hrun HA HU Hi Hj HinA HaA HtA HinU HaU HtU.
  pose proof (first_seen_NoDup (map Txn.account txns)) as Hnd.
  split_and!.
  - intros Hin. apply run_spec in Hrun as (_ & _ & _ & Hw). rewrite Hw in Hin.
    apply emitted_elem in Hin as (_ & _ & P & _ & Hk). apply Hk. split; [|done].
    rewrite HaU, HtU. by apply unknown_suppresses_configured.
  - intros Hij. destruct (first_seen_order _ _ _ _ _ Hi Hj Hij) as (pre & mid & post & Hfs).
    rewrite Hfs in Hnd.
    apply (written_iff cfg args nowdate txns out ledger pre (mid ++ U :: post));
      [done|by rewrite HaA|]. split; [done|]. unfold kept. rewrite HaA, HtA.
    split; [done|]. intros [Hsup _].
    apply suppressed_unconfigured in Hsup; [|done].
    apply elem_of_list_to_set in Hsup. apply NoDup_app in Hnd as (_ & Hnd & _).
    apply (Hnd U Hsup). set_solver.
  - intros Hji. destruct (first_seen_order _ _ _ _ _ Hj Hi Hji) as (pre & mid & post & Hfs).
    rewrite (written_iff cfg args nowdate txns out ledger (pre ++ U :: mid) post);
      [|done|by rewrite HaA, <- app_assoc].
    intros [_ [_ Hk]]. apply Hk. split; [|done]. rewrite HaA, HtA.
    apply suppressed_unconfigured; [done|]. set_solver.
Qed.

Lemma configured_unconfigured_transfer_witness :
  ((Sample.leg_savings ∉ written Cases.checking_only_out)
   /\ (1 < 0 -> Sample.leg_checking ∈ written Cases.checking_only_out)
   /\ (0 < 1 -> Sample.leg_checking ∉ written Cases.checking_only_out))
  /\ ((Sample.leg_savings ∉ written Cases.checking_first_out)
      /\ (0 < 1 -> Sample.leg_checking ∈ written Cases.checking_first_out)
      /\ (1 < 0 -> Sample.leg_checking ∉ written Cases.checking_first_out)).
Proof.
  split.
  - apply (configured_unconfigured_transfer Cases.checking_only Sample.single_leg
             "20230201" Sample.legs Cases.checking_only_out Cases.checking_only_ledger
             Sample.checking Sample.savings 1 0 Sample.leg_checking Sample.leg_savings);
      try reflexivity.
    + left.
    + intros Hin. apply list_elem_of_singleton in Hin. discriminate Hin.
    + right. left.
    + left.
  - apply (configured_unconfigured_transfer Cases.checking_only Sample.single_leg
             "20230201" (rev Sample.legs) Cases.checking_first_out
             Cases.checking_first_ledger
             Sample.checking Sample.savings 0 1 Sample.leg_checking Sample.leg_savings);
      try reflexivity.
    + left.
    + intros Hin. apply list_elem_of_singleton in Hin. discriminate Hin.
    + left.
    + right. left.
Defined.

(** X9. In dual-leg mode the transactions written are the
    transactions read, grouped by account: the accounts in the order
    in which they first appear, and the transactions of an account in
    the order of the input. *)
Theorem homebank_grouped (cfg : Cfg.t) (args : Args) (nowdate : string)
    (txns : list Txn.t) (out : list message) (ledger : list (string * Ledger.t)) :
  homebank args = true ->
  OfxWriter.run cfg args nowdate txns = Ok (out, ledger) ->
  written out
  = flat_map (fun account => filter (fun t => Txn.account t = account) txns)
             (first_seen (map Txn.account txns)).
Proof.
  intros Hhb Hrun.
  destruct (run_layout _ _ _ _ _ _ Hrun) as (accounts & mn & mx & _ & _ & Hk & _).
  apply run_spec in Hrun as (_ & _ & _ & ->). rewrite Hk.
  generalize (first_seen (map Txn.account txns)) (∅ : gset string).
  intros ks. induction ks as [|a ks IH]; intros processed; [done|]. simpl.
  rewrite IH. f_equal. apply list_filter_iff. intros t. unfold kept.
  rewrite Hhb. naive_solver.
Qed.

Lemma homebank_grouped_witness :
  written Sample.dual_leg_out
  = flat_map (fun account => filter (fun t => Txn.account t = account) Sample.legs)
             (first_seen (map Txn.account Sample.legs)).
Proof.
  apply (homebank_grouped Sample.cfg Sample.dual_leg "20230201" Sample.legs
           Sample.dual_leg_out Sample.dual_leg_ledger); reflexivity.
Defined.

(** ** Completion and counter accounts of [run] *)

Lemma gather_accounts_error txns accounts mindate maxdate e :
  OfxWriter.gather_accounts txns accounts mindate maxdate = Raise e ->
  e = ValueError "invalid literal for int() with base 10".
Proof.
  revert accounts mindate maxdate. induction txns as [|t txns IH];
    intros accounts mindate maxdate; simpl; [done|].
  destruct (Num.int (Txn.dtposted t)) as [d|]; [apply IH|]. by intros [= <-].
Qed.

Lemma run_error cfg args nowdate txns e :
  OfxWriter.run cfg args nowdate txns = Raise e ->
  e = ValueError "invalid literal for int() with base 10".
Proof.
  unfold OfxWriter.run.
  destruct (OfxWriter.gather_accounts txns [] 999999999 0)
    as [[[accounts mindate] maxdate]|e'] eqn:Hg; simpl.
  - by destruct (OfxWriter.write_accounts _ _ _ _ _ accounts ∅) as [[ledger out] P].
  - intros [= <-]. by eapply gather_accounts_error.
Qed.

(** X10. On transactions whose posted dates are no longer than [int]
    takes, the two loops of [run] complete exactly when [int] accepts
    the posted date of every transaction, written or not, and the only
    exception they raise is the [ValueError] of [int]. Opening and
    writing the file, which can fail on their own, are not part of the
    statement. *)
Theorem run_completes_iff (cfg : Cfg.t) (args : Args) (nowdate : string)
    (txns : list Txn.t) :
  Forall (fun t => int_sized (Txn.dtposted t) = true) txns ->
  (succeeds (OfxWriter.run cfg args nowdate txns)
   <-> Forall (fun t => is_Some (Num.int (Txn.dtposted t))) txns)
  /\ forall e, OfxWriter.run cfg args nowdate txns = Raise e ->
       e = ValueError "invalid literal for int() with base 10".
Proof.
  intros _. split; [symmetry; apply run_total|]. intros e. apply run_error.
Qed.

Lemma run_completes_iff_witness :
  (succeeds (OfxWriter.run Sample.cfg Sample.single_leg "20230201" Sample.legs)
   <-> Forall (fun t => is_Some (Num.int (Txn.dtposted t))) Sample.legs)
  /\ forall e, OfxWriter.run Sample.cfg Sample.single_leg "20230201" Sample.legs = Raise e ->
       e = ValueError "invalid literal for int() with base 10".
Proof.
  apply (run_completes_iff Sample.cfg Sample.single_leg "20230201" Sample.legs).
  repeat constructor.
Defined.

Lemma outside_counter_kept cfg args nowdate txns out ledger t :
  OfxWriter.run cfg args nowdate txns = Ok (out, ledger) ->
  t ∈ txns ->
  Txn.accountto t ∉ Cfg.config_accounts cfg ->
  Txn.accountto t ∉ map Txn.account txns ->
  t ∈ written out.
Proof.
  intros Hrun Ht Hcfg Hfile.
  assert (Ha : Txn.account t ∈ first_seen (map Txn.account txns)).
  { apply first_seen_elem, list_elem_of_fmap. by exists t. }
  apply list_elem_of_split in Ha as (pre & post & Hsplit).
  apply (written_iff cfg args nowdate txns out ledger pre post t Hrun Hsplit).
  split; [done|]. split; [done|]. intros [Hsup _].
  apply suppressed_unconfigured in Hsup; [|done]. apply elem_of_list_to_set in Hsup.
  apply Hfile, (first_seen_elem (map Txn.account txns)). rewrite Hsplit.
  apply elem_of_app. by left.
Qed.

(** X11. A transaction whose counter account is neither a configured
    account nor the account of a transaction of the file is written, in
    either mode: only transfers between accounts that are configured or
    present in the file can be dropped. *)
Theorem outside_counter_written (cfg : Cfg.t) (args : Args) (nowdate : string)
    (txns : list Txn.t) (out : list message) (ledger : list (string * Ledger.t))
    (t : Txn.t) :
  OfxWriter.run cfg args nowdate txns = Ok (out, ledger) ->
  t ∈ txns ->
  Txn.accountto t ∉ Cfg.config_accounts cfg ->
  Txn.accountto t ∉ map Txn.account txns ->
  t ∈ written out.
Proof. apply outside_counter_kept. Qed.

Lemma outside_counter_written_witness : Cases.paid ∈ written Cases.payment_out.
Proof.
  apply (outside_counter_written Sample.cfg Sample.single_leg "20230201" [Cases.paid]
           Cases.payment_out Cases.payment_ledger Cases.paid).
  - reflexivity.
  - left.
  - compute_done.
  - compute_done.
Defined.

(** ** Reading the rows *)

Lemma map_memo_name_succeeds (row : RawRecord) :
  exists name memo, CsvFile.map_memo_name row = Ok (0, name, memo).
Proof.
  unfold CsvFile.map_memo_name.
  destruct (String.eqb (bookCode row) "ba" && _); [by eexists _, _|].
  destruct (String.eqb_spec (bookCode row) "db") as [Hdb|_].
  - rewrite Hdb. by eexists _, _.
  - destruct (String.eqb (bookCode row) "ac"); by eexists _, _.
Qed.

Lemma create_ofx_mapped args overrides seen row t seen' :
  CsvFile.create_ofx args overrides seen row = Ok (t, seen') ->
  mapped args overrides row t
  /\ exists key,
       row_key args overrides row = Ok key
       /\ Txn.fitid t
          = fitid_of (key, match seen !! key with Some m => m + 1 | None => 0 end)
       /\ seen' = <[key := match seen !! key with Some m => m + 1 | None => 0 end]> seen.
Proof.
  unfold CsvFile.create_ofx, mapped, row_key. simpl.
  destruct (CsvFile.map_date_posted overrides row) as [[k dtposted]|e]; [|done]. simpl.
  assert (Hamt : exists trnamt, CsvFile.map_amount args row = (0, trnamt)).
  { unfold CsvFile.map_amount. destruct (dec_comma args); by eexists. }
  destruct Hamt as [trnamt ->]. simpl.
  unfold CsvFile.map_fitid.
  destruct (CsvFile.dc_code trnamt) as [dc|e]; [|done]. simpl.
  destruct (map_memo_name_succeeds row) as (name & memo & ->). simpl.
  intros [= <- <-]. simpl. split_and!; try done.
  - do 2 f_equal. lia.
  - by eexists.
Qed.

Lemma read_rows_mapped args overrides seen rows txns seen' :
  CsvFile.read_rows args overrides seen rows = Ok (txns, seen') ->
  Forall2 (mapped args overrides) rows txns.
Proof.
  revert seen txns seen'. induction rows as [|row rows IH]; intros seen txns seen' Hrows;
    simpl in Hrows.
  - injection Hrows as <- <-. constructor.
  - destruct (CsvFile.create_ofx args overrides seen row) as [[t seen1]|e] eqn:Hrow; [|done].
    simpl in Hrows.
    destruct (CsvFile.read_rows args overrides seen1 rows) as [[ts seen2]|e] eqn:Hrest;
      [|done].
    simpl in Hrows. injection Hrows as <- <-.
    constructor; [by apply create_ofx_mapped in Hrow as [? _]|by eapply IH].
Qed.

Lemma init_mapped args overrides rows txns :
  CsvFile.init args overrides rows = Ok txns -> Forall2 (mapped args overrides) rows txns.
Proof.
  unfold CsvFile.init.
  destruct (CsvFile.read_rows args overrides ∅ rows) as [[ts seen]|e] eqn:Hrows; [|done].
  simpl. intros [= <-]. by eapply read_rows_mapped.
Qed.

Lemma read_rows_fitid args overrides seen rows txns seen' i row t :
  CsvFile.read_rows args overrides seen rows = Ok (txns, seen') ->
  rows !! i = Some row -> txns !! i = Some t ->
  exists key,
    row_key args overrides row = Ok key
    /\ Txn.fitid t
       = fitid_of (key, match seen !! key with Some m => m + 1 | None => 0 end
                        + key_count args overrides key (take i rows)).
Proof.
  revert seen txns seen' i. induction rows as [|row0 rows IH];
    intros seen txns seen' i Hrows Hi Ht; [done|]. simpl in Hrows.
  destruct (CsvFile.create_ofx args overrides seen row0) as [[t0 seen1]|e] eqn:Hrow; [|done].
  simpl in Hrows.
  destruct (CsvFile.read_rows args overrides seen1 rows) as [[ts seen2]|e] eqn:Hrest;
    [|done].
  simpl in Hrows. injection Hrows as <- <-.
  apply create_ofx_mapped in Hrow as (_ & key0 & Hkey0 & Hfit0 & ->).
  destruct i as [|i]; simpl in Hi, Ht.
  - injection Hi as <-. injection Ht as <-. exists key0. split; [done|].
    rewrite Hfit0. unfold key_count. simpl. do 2 f_equal. lia.
  - destruct (IH _ _ _ _ Hrest Hi Ht) as (key & Hkey & Hfit). exists key. split; [done|].
    rewrite Hfit. do 2 f_equal. unfold key_count. simpl.
    destruct (decide (key0 = key)) as [->|Hne].
    + rewrite lookup_insert_eq, filter_cons_True by done. simpl.
      destruct (seen !! key); lia.
    + rewrite lookup_insert_ne, filter_cons_False by congruence. done.
Qed.

Lemma key_count_take args overrides key rows i row :
  rows !! i = Some row -> row_key args overrides row = Ok key ->
  forall j, i < j ->
    key_count args overrides key (take i rows) < key_count args overrides key (take j rows).
Proof.
  intros Hi Hkey j Hij. unfold key_count.
  rewrite <- (take_drop_middle rows i row Hi) at 2.
  assert (Hlen : length (take i rows) = i).
  { apply length_take_le. apply lookup_lt_Some in Hi. lia. }
  rewrite take_app, Hlen, (take_ge (take i rows) j) by lia.
  replace (j - i) with (S (j - S i)) by lia. simpl.
  rewrite filter_app, filter_cons_True, length_app by done. simpl. lia.
Qed.

Lemma key_count_take_le args overrides key rows i row :
  rows !! i = Some row -> row_key args overrides row = Ok key ->
  key_count args overrides key (take i rows) < key_count args overrides key rows.
Proof.
  intros Hi Hkey. rewrite <- (firstn_all rows) at 2.
  eapply key_count_take; [done..|]. by apply lookup_lt_Some in Hi.
Qed.

Lemma append_inj_r (k s1 s2 : string) : k +:+ s1 = k +:+ s2 -> s1 = s2.
Proof. induction k as [|c k IH]; simpl; [done|]. intros [= H]. auto. Qed.

Lemma str_of_nat_inj (n m : nat) : Py.str_of_nat n = Py.str_of_nat m -> n = m.
Proof.
  unfold Py.str_of_nat. intros H.
  apply (f_equal NilEmpty.uint_of_string) in H. rewrite !NilEmpty.usu in H.
  injection H as H. by apply DecimalNat.Unsigned.to_uint_inj in H.
Qed.

(** ** Errors of the reader *)

(** The rows of the reader are data lines that have all their 26
    columns ([RawRecord]); what follows is about files whose data lines
    are of this kind. A line that lacks a column the program reads is
    not a [RawRecord]: on it the program fails on the [None] of the
    missing column (an [AttributeError] or a [TypeError]), unless it has
    failed before. *)







(** ** The transactions of the reader *)

(** X14. The reader returns one transaction per data row, in the order
    of the rows; account, type, posted date, amount, counter account,
    name and memo of a transaction are those its row is mapped to,
    whatever other rows the file holds, and the transaction counts at
    most one override. *)
Theorem init_one_per_row (args : Args) (overrides : gmap string string)
    (rows : list RawRecord) (txns : list Txn.t) :
  CsvFile.init args overrides rows = Ok txns ->
  Forall2 (mapped args overrides) rows txns
  /\ Forall (fun t => Txn.nr_overrides t <= 1) txns.
Proof.
  intros Hinit. apply init_mapped in Hinit. split; [done|].
  induction Hinit as [|row t rows txns Hm _ IH]; constructor; [|done].
  destruct Hm as (_ & _ & _ & _ & Hd & _). unfold CsvFile.map_date_posted in Hd.
  destruct (overrides !! "force_date_posted"%string); [|done].
  destruct (Py.truthy s && _); injection Hd as <- _; lia.
Qed.

Lemma init_one_per_row_witness :
  Forall2 (mapped Sample.single_leg Sample.overrides) Sample.transfer Sample.legs
  /\ Forall (fun t => Txn.nr_overrides t <= 1) Sample.legs.
Proof.
  apply (init_one_per_row Sample.single_leg Sample.overrides Sample.transfer Sample.legs).
  reflexivity.
Defined.

Lemma replace_removes (old new : ascii) (s : string) :
  old ≠ new -> old ∉ Py.chars (Py.replace old (String new EmptyString) s).
Proof.
  intros Hne. rewrite replace_char_chars. intros Hin.
  apply list_elem_of_fmap in Hin as (c & Hc & _). unfold subst_char in Hc.
  destruct (Ascii.eqb_spec c old); congruence.
Qed.

Lemma replace_empty_removes (old : ascii) (s : string) :
  old ∉ Py.chars (Py.replace old "" s).
Proof.
  rewrite replace_empty_filter, chars_str. intros Hin.
  by apply list_elem_of_filter in Hin as [? _].
Qed.

(** X15. In every transaction the reader returns, the account number
    has no blank, the posted date has no dash, and the amount does not
    have the decimal separator the preference replaces: no comma under
    the decimal-point preference, no point under the decimal-comma
    preference. *)
Theorem init_fields_normalised (args : Args) (overrides : gmap string string)
    (rows : list RawRecord) (txns : list Txn.t) (t : Txn.t) :
  CsvFile.init args overrides rows = Ok txns -> t ∈ txns ->
  (" "%char ∉ Py.chars (Txn.account t))
  /\ ("-"%char ∉ Py.chars (Txn.dtposted t))
  /\ (if dec_comma args then "."%char else ","%char) ∉ Py.chars (Txn.trnamt t).
Proof.
  intros Hinit Ht. apply init_mapped in Hinit.
  apply list_elem_of_lookup in Ht as [i Hi].
  destruct (Forall2_lookup_r _ _ _ _ _ Hinit Hi) as (row & _ & Hm).
  destruct Hm as (Ha & _ & Hamt & _ & Hd & _). split_and!.
  - rewrite Ha. apply replace_empty_removes.
  - unfold CsvFile.map_date_posted in Hd.
    destruct (overrides !! "force_date_posted"%string); [|done].
    destruct (Py.truthy s && _); injection Hd as _ <-; apply replace_empty_removes.
  - rewrite Hamt. unfold CsvFile.map_amount.
    destruct (dec_comma args); simpl; by apply replace_removes.
Qed.

Lemma init_fields_normalised_witness :
  (" "%char ∉ Py.chars (Txn.account Sample.leg_savings))
  /\ ("-"%char ∉ Py.chars (Txn.dtposted Sample.leg_savings))
  /\ ","%char ∉ Py.chars (Txn.trnamt Sample.leg_savings).
Proof.
  apply (init_fields_normalised Sample.single_leg Sample.overrides Sample.transfer
           Sample.legs Sample.leg_savings).
  - reflexivity.
  - left.
Defined.

(** ** Identifiers of the reader *)

Lemma init_fitid args overrides rows txns i t :
  CsvFile.init args overrides rows = Ok txns -> txns !! i = Some t ->
  exists row key,
    rows !! i = Some row /\ row_key args overrides row = Ok key
    /\ Txn.fitid t = fitid_of (key, key_count args overrides key (take i rows)).
Proof.
  intros Hinit Ht. pose proof (init_mapped _ _ _ _ Hinit) as Hm.
  destruct (Forall2_lookup_r _ _ _ _ _ Hm Ht) as (row & Hi & _).
  unfold CsvFile.init in Hinit.
  destruct (CsvFile.read_rows args overrides ∅ rows) as [[ts seen]|e] eqn:Hrows; [|done].
  simpl in Hinit. injection Hinit as ->.
  destruct (read_rows_fitid _ _ _ _ _ _ _ _ _ Hrows Hi Ht) as (key & Hkey & Hfit).
  rewrite lookup_empty in Hfit. by exists row, key.
Qed.

(** X16. The identifier of a transaction is the key of its row followed
    by the number of earlier rows of the file that have the same key,
    in decimal. *)
Theorem fitid_counts_earlier (args : Args) (overrides : gmap string string)
    (rows : list RawRecord) (txns : list Txn.t) (i : nat) (row : RawRecord) (t : Txn.t) :
  CsvFile.init args overrides rows = Ok txns ->
  rows !! i = Some row -> txns !! i = Some t ->
  exists key,
    row_key args overrides row = Ok key
    /\ Txn.fitid t
       = (key +:+ Py.str_of_nat (key_count args overrides key (take i rows)))%string.
Proof.
  intros Hinit Hi Ht.
  destruct (init_fitid _ _ _ _ _ _ Hinit Ht) as (row' & key & Hi' & Hkey & Hfit).
  assert (row' = row) as -> by congruence. by exists key.
Qed.

Lemma fitid_counts_earlier_witness :
  exists key,
    row_key Sample.single_leg Sample.overrides
      (Sample.row Sample.checking "000000000000000007" "2023-01-05" "2023-01-04" "-12,34"
         Sample.savings) = Ok key
    /\ Txn.fitid Sample.leg_checking
       = (key +:+ Py.str_of_nat
                    (key_count Sample.single_leg Sample.overrides key
                       (take 1 Sample.transfer)))%string.
Proof.
  apply (fitid_counts_earlier Sample.single_leg Sample.overrides Sample.transfer
           Sample.legs 1); reflexivity.
Defined.

(** X17. Two rows of one file that have the same key, such as two
    identical rows, get different identifiers, however many rows share
    the key. *)
Theorem same_key_distinct_fitid (args : Args) (overrides : gmap string string)
    (rows : list RawRecord) (txns : list Txn.t) (i j : nat)
    (row row' : RawRecord) (t t' : Txn.t) :
  CsvFile.init args overrides rows = Ok txns ->
  rows !! i = Some row -> rows !! j = Some row' -> i < j ->
  row_key args overrides row = row_key args overrides row' ->
  txns !! i = Some t -> txns !! j = Some t' ->
  Txn.fitid t ≠ Txn.fitid t'.
Proof.
  intros Hinit Hi Hj Hij Hsame Ht Ht'.
  destruct (init_fitid _ _ _ _ _ _ Hinit Ht) as (r & key & Hr & Hkey & ->).
  destruct (init_fitid _ _ _ _ _ _ Hinit Ht') as (r' & key' & Hr' & Hkey' & ->).
  assert (r = row) as -> by congruence. assert (r' = row') as -> by congruence.
  assert (key' = key) as -> by congruence.
  pose proof (key_count_take args overrides key rows i row Hi Hkey j Hij) as Hlt.
  unfold fitid_of. simpl. intros Heq.
  apply append_inj_r, str_of_nat_inj in Heq. lia.
Qed.

Lemma same_key_distinct_fitid_witness :
  Txn.fitid <$> Cases.duplicates_out !! 0 = Some "20170501500C0"%string
  /\ Txn.fitid <$> Cases.duplicates_out !! 1 = Some "20170501500C1"%string
  /\ forall t t', Cases.duplicates_out !! 0 = Some t -> Cases.duplicates_out !! 1 = Some t' ->
       Txn.fitid t ≠ Txn.fitid t'.
Proof.
  split; [reflexivity|]. split; [reflexivity|]. intros t t'.
  apply (same_key_distinct_fitid Sample.single_leg Sample.overrides Cases.duplicates
           Cases.duplicates_out 0 1
           (Sample.row Sample.savings "" "2017-05-01" "2017-05-01" "+5,00" Sample.checking)
           (Sample.row Sample.savings "" "2017-05-01" "2017-05-01" "+5,00" Sample.checking));
    [reflexivity|reflexivity|reflexivity|lia|reflexivity].
Defined.

Lemma fitid_NoDup args overrides rows txns (P : string -> nat -> Prop) :
  CsvFile.init args overrides rows = Ok txns ->
  (forall i row key, rows !! i = Some row -> row_key args overrides row = Ok key ->
     P key (key_count args overrides key (take i rows))) ->
  (forall k1 n1 k2 n2, P k1 n1 -> P k2 n2 ->
     fitid_of (k1, n1) = fitid_of (k2, n2) -> k1 = k2 /\ n1 = n2) ->
  NoDup (map Txn.fitid txns).
Proof.
  intros Hinit HP Hinj. apply NoDup_alt. intros i j x Hi Hj.
  rewrite list_lookup_fmap in Hi, Hj.
  destruct (txns !! i) as [t|] eqn:Ht; [|done].
  destruct (txns !! j) as [t'|] eqn:Ht'; [|done].
  simpl in Hi, Hj. injection Hi as Hi. injection Hj as Hj.
  destruct (init_fitid _ _ _ _ _ _ Hinit Ht) as (r & key & Hr & Hkey & Hfit).
  destruct (init_fitid _ _ _ _ _ _ Hinit Ht') as (r' & key' & Hr' & Hkey' & Hfit').
  destruct (Hinj key _ key' _ (HP _ _ _ Hr Hkey) (HP _ _ _ Hr' Hkey')) as [-> Hn];
    [congruence|].
  destruct (Nat.lt_trichotomy i j) as [Hlt|[Heq|Hlt]]; [|done|].
  - pose proof (key_count_take args overrides key' rows i r Hr Hkey j Hlt). lia.
  - pose proof (key_count_take args overrides key' rows j r' Hr' Hkey' i Hlt). lia.
Qed.

(** X18. When no key is shared by more than ten rows of the file, the
    identifiers of the transactions are pairwise distinct. *)
Theorem fitid_unique_up_to_ten (args : Args) (overrides : gmap string string)
    (rows : list RawRecord) (txns : list Txn.t) :
  CsvFile.init args overrides rows = Ok txns ->
  (forall key, key_count args overrides key rows <= 10) ->
  NoDup (map Txn.fitid txns).
Proof.
  intros Hinit Hten. apply (fitid_NoDup args overrides rows txns (fun _ n => n < 10) Hinit).
  - intros i row key Hi Hkey.
    pose proof (key_count_take_le args overrides key rows i row Hi Hkey).
    specialize (Hten key). lia.
  - intros k1 n1 k2 n2 H1 H2 Heq. by apply fitid_of_inj in Heq as [= -> ->].
Qed.

Lemma fitid_unique_up_to_ten_witness : NoDup (map Txn.fitid Sample.legs).
Proof.
  apply (fitid_unique_up_to_ten Sample.single_leg Sample.overrides Sample.transfer
           Sample.legs).
  - reflexivity.
  - intros key. unfold key_count. etransitivity; [apply length_filter|]. simpl. lia.
Defined.

Lemma chars_app (a b : string) : Py.chars (a +:+ b) = Py.chars a ++ Py.chars b.
Proof. induction a as [|c a IH]; simpl; [done|]. unfold Py.chars in *. simpl. by rewrite IH. Qed.

Lemma str_of_nat_digits (n : nat) :
  Forall (fun c => Py.is_digit c = true) (Py.chars (Py.str_of_nat n)).
Proof.
  unfold Py.str_of_nat. generalize (Nat.to_uint n). intros u.
  induction u; simpl; constructor; done.
Qed.

Lemma digits_after_inj (A B X Y : list ascii) (c1 c2 : ascii) :
  Forall (fun c => Py.is_digit c = true) A -> Forall (fun c => Py.is_digit c = true) B ->
  Py.is_digit c1 = false -> Py.is_digit c2 = false ->
  A ++ c1 :: X = B ++ c2 :: Y -> A = B /\ c1 :: X = c2 :: Y.
Proof.
  intros HA. revert B. induction HA as [|a A Ha _ IH]; intros B HB H1 H2 Heq.
  - destruct HB as [|b B Hb _]; [done|]. simpl in Heq. injection Heq as -> _. congruence.
  - destruct HB as [|b B Hb HB]; simpl in Heq.
    + injection Heq as -> _. congruence.
    + injection Heq as -> Heq. destruct (IH B HB H1 H2 Heq) as [-> ?]. done.
Qed.

Lemma fitid_of_inj_letter (k1 k2 : string) (c1 c2 : ascii) (n1 n2 : nat) :
  Py.is_digit c1 = false -> Py.is_digit c2 = false ->
  fitid_of (k1 +:+ String c1 "", n1) = fitid_of (k2 +:+ String c2 "", n2) ->
  k1 +:+ String c1 "" = k2 +:+ String c2 "" /\ n1 = n2.
Proof.
  intros H1 H2. unfold fitid_of. simpl. intros Heq.
  apply (f_equal Py.chars) in Heq. rewrite !chars_app in Heq.
  apply (f_equal (@rev ascii)) in Heq. rewrite !rev_app_distr in Heq. simpl in Heq.
  rewrite <- ?app_assoc in Heq. simpl in Heq.
  apply digits_after_inj in Heq as [Hn Hk]; try done.
  - split.
    + rewrite <- (str_chars (k1 +:+ String c1 "")), <- (str_chars (k2 +:+ String c2 "")).
      f_equal. rewrite !chars_app. simpl. apply rev_inj.
      rewrite !rev_app_distr. simpl. done.
    + apply rev_inj in Hn. apply str_of_nat_inj.
      rewrite <- (str_chars (Py.str_of_nat n1)), <- (str_chars (Py.str_of_nat n2)).
      by f_equal.
  - apply Forall_rev, str_of_nat_digits.
  - apply Forall_rev, str_of_nat_digits.
Qed.

Lemma append_assoc (a b c : string) : (a +:+ b) +:+ c = a +:+ b +:+ c.
Proof.
  induction a as [|x a IH]; [done|].
  change (String x ((a +:+ b) +:+ c) = String x (a +:+ b +:+ c)). by f_equal.
Qed.

Lemma legacy_key_letter args overrides row key :
  legacy_keyed overrides row -> row_key args overrides row = Ok key ->
  exists k c, key = k +:+ String c "" /\ Py.is_digit c = false.
Proof.
  unfold row_key, legacy_keyed. intros Hleg.
  destruct (CsvFile.map_date_posted overrides row) as [[n dtposted]|e]; [|done]. simpl.
  unfold CsvFile.dc_code. destruct (Num.float _) as [x|]; [|done]. simpl.
  intros [= <-]. unfold CsvFile.fitid_key.
  assert (Py.truthy (serNr row) && Py.gt dtposted "20171231" = false) as ->.
  { destruct Hleg as [->|(n' & d' & [= <- <-] & ->)]; [done|]. apply andb_false_r. }
  rewrite <- append_assoc.
  destruct (Num.ge0 x); eexists _, _; split; reflexivity.
Qed.

(** X19. When every row of the file is keyed the legacy way (it has no
    sequence number, or its posted date is not after 2017), the
    identifiers of the transactions are pairwise distinct, however many
    rows share a date and an amount. *)
Theorem legacy_fitid_unique (args : Args) (overrides : gmap string string)
    (rows : list RawRecord) (txns : list Txn.t) :
  CsvFile.init args overrides rows = Ok txns ->
  Forall (legacy_keyed overrides) rows ->
  NoDup (map Txn.fitid txns).
Proof.
  intros Hinit Hleg.
  apply (fitid_NoDup args overrides rows txns
           (fun key _ => exists k c, key = k +:+ String c "" /\ Py.is_digit c = false) Hinit).
  - intros i row key Hi Hkey. eapply legacy_key_letter; [|done].
    rewrite Forall_forall in Hleg. apply Hleg. by eapply list_elem_of_lookup_2.
  - intros k1 n1 k2 n2 (k & c & -> & Hc) (k' & c' & -> & Hc') Heq.
    by apply fitid_of_inj_letter.
Qed.

Lemma legacy_fitid_unique_witness : NoDup (map Txn.fitid Cases.duplicates_out).
Proof.
  apply (legacy_fitid_unique Sample.single_leg Sample.overrides Cases.duplicates
           Cases.duplicates_out).
  - reflexivity.
  - repeat constructor.
Defined.

(** ** Reader and assembler together *)

Lemma mapped_account_no_blank args overrides rows txns :
  Forall2 (mapped args overrides) rows txns ->
  Forall (fun a => " "%char ∉ Py.chars a) (map Txn.account txns).
Proof.
  induction 1 as [|row t rows txns Hm _ IH]; simpl; constructor; [|done].
  destruct Hm as (-> & _). apply replace_empty_removes.
Qed.

(** X20. The counter account of a row is taken over as it stands, while
    the account of the row loses its blanks. So when no configured
    account has a blank, a transaction read from a row whose counter
    account is written with a blank is never dropped as the second leg
    of a transfer. *)
Theorem spaced_counter_written (cfg : Cfg.t) (args : Args) (nowdate : string)
    (overrides : gmap string string) (rows : list RawRecord)
    (txns : list Txn.t) (out : list message) (ledger : list (string * Ledger.t))
    (t : Txn.t) :
  CsvFile.init args overrides rows = Ok txns ->
  OfxWriter.run cfg args nowdate txns = Ok (out, ledger) ->
  Forall (fun a => " "%char ∉ Py.chars a) (Cfg.config_accounts cfg) ->
  t ∈ txns ->
  " "%char ∈ Py.chars (Txn.accountto t) ->
  t ∈ written out.
Proof.
  intros Hinit Hrun Hcfg Ht Hblank.
  apply init_mapped, mapped_account_no_blank in Hinit.
  rewrite Forall_forall in Hcfg, Hinit.
  apply (outside_counter_kept cfg args nowdate txns out ledger t Hrun Ht).
  - intros Hin. by apply (Hcfg _ Hin).
  - intros Hin. by apply (Hinit _ Hin).
Qed.

Lemma spaced_counter_written_witness : Cases.paid ∈ written Cases.payment_out.
Proof.
  apply (spaced_counter_written Sample.cfg Sample.single_leg "20230201" Sample.overrides
           Cases.payment [Cases.paid] Cases.payment_out Cases.payment_ledger Cases.paid).
  - reflexivity.
  - reflexivity.
  - compute_done.
  - left.
  - compute_done.
Defined.

(** ** The program *)


Lemma main_inv upper configfile args nowdate rows out ledger :
  main upper configfile args nowdate rows = Ok (out, ledger) ->
  exists cfg txns,
    Cfg.init upper configfile = Ok cfg
    /\ CsvFile.init args (Cfg.config_overrides cfg) rows = Ok txns
    /\ OfxWriter.run cfg args nowdate txns = Ok (out, ledger).
Proof.
  unfold main. destruct (Cfg.init upper configfile) as [cfg|e] eqn:Hcfg; [|done]. simpl.
  destruct (CsvFile.init args (Cfg.config_overrides cfg) rows) as [txns|e] eqn:Hinit;
    [|done].
  simpl. intros Hrun. by exists cfg, txns.
Qed.

Lemma mapped_accounts args overrides rows txns :
  Forall2 (mapped args overrides) rows txns ->
  map Txn.account txns = map (fun row => Py.replace " " "" (acctNr row)) rows.
Proof.
  induction 1 as [|row t rows txns Hm _ IH]; simpl; [done|].
  destruct Hm as (-> & _). by rewrite IH.
Qed.

(** X22. When the program completes, the OFX file is the header, one
    statement block for each distinct account number of the CSV file,
    blanks disregarded, in the order in which the account numbers first
    appear, and the footer; the counters are kept in the same order;
    and every data row is either written as a transaction or counted as
    skipped. *)
Theorem main_statements (upper : string -> string) (configfile : option ConfigParser)
    (args : Args) (nowdate : string) (rows : list RawRecord)
    (out : list message) (ledger : list (string * Ledger.t)) :
  main upper configfile args nowdate rows = Ok (out, ledger) ->
  let accounts := first_seen (map (fun row => Py.replace " " "" (acctNr row)) rows) in
  (exists mindate maxdate,
     out = message_header nowdate
           :: flat_map (statement_block mindate maxdate (written out)) accounts
           ++ [message_footer])
  /\ map fst ledger = accounts
  /\ length (written out) + sum_list_with (fun kv => Ledger.txn_skip kv.2) ledger
     = length rows.
Proof.
  intros Hmain. apply main_inv in Hmain as (cfg & txns & _ & Hinit & Hrun).
  apply init_mapped in Hinit. simpl.
  rewrite <- (mapped_accounts _ _ _ _ Hinit).
  destruct (run_layout _ _ _ _ _ _ Hrun) as (accounts & mn & mx & _ & Hout & Hk & _).
  split_and!.
  - by exists mn, mx.
  - exact Hk.
  - rewrite (run_accounting _ _ _ _ _ _ Hrun). symmetry. by eapply Forall2_length.
Qed.

Lemma main_statements_witness :
  let accounts :=
    first_seen (map (fun row => Py.replace " " "" (acctNr row)) Sample.transfer) in
  (exists mindate maxdate,
     Sample.single_leg_out
     = message_header "20230201"
       :: flat_map (statement_block mindate maxdate (written Sample.single_leg_out))
                   accounts
       ++ [message_footer])
  /\ map fst Sample.single_leg_ledger = accounts
  /\ length (written Sample.single_leg_out)
     + sum_list_with (fun kv => Ledger.txn_skip kv.2) Sample.single_leg_ledger
     = length Sample.transfer.
Proof.
  apply (main_statements (fun s => s) (Some Sample.configfile) Sample.single_leg "20230201"
           Sample.transfer Sample.single_leg_out Sample.single_leg_ledger).
  vm_compute. reflexivity.
Defined.






Lemma fold_left_snoc_map {A B : Type} (f : A -> B) (l : list A) (acc : list B) :
  fold_left (fun l a => l ++ [f a]) l acc = acc ++ map f l.
Proof.
  revert acc. induction l as [|a l IH]; intros acc; simpl; [by rewrite app_nil_r|].
  by rewrite IH, <- app_assoc.
Qed.

Lemma fold_left_insert_lookup (l : list (string * string)) (d : gmap string string) :
  fold_left (fun (d : gmap string string) kv => <[kv.1 := kv.2]> d) l d
  = list_to_map (rev l) ∪ d.
Proof.
  revert d. induction l as [|[k v] l IH]; intros d; simpl.
  - by rewrite (left_id_L ∅ (∪)).
  - rewrite IH, list_to_map_app. simpl. rewrite insert_empty, <- (assoc_L (∪)).
    by rewrite <- insert_union_singleton_l.
Qed.

(** X24. When [Cfg()] completes on a configuration file, the file has
    both sections; the configured ordering is the values of the
    [accounts] section in the order of the file, each in upper case,
    repetitions included, and the override dictionary holds the options
    of the [override] section. *)
Theorem cfg_init_sections (upper : string -> string) (config : ConfigParser)
    (cfg : Cfg.t) :
  Cfg.init upper (Some config) = Ok cfg ->
  exists accounts override,
    Cfg.section config "accounts" = Ok accounts
    /\ Cfg.section config "override" = Ok override
    /\ Cfg.config_accounts cfg = map upper (map snd accounts)
    /\ Cfg.config_overrides cfg = list_to_map (rev override).
Proof.
  unfold Cfg.init.
  destruct (Cfg.section config "accounts") as [accounts|e]; [|done]. simpl.
  destruct (Cfg.section config "override") as [override|e]; [|done]. simpl.
  intros [= <-]. exists accounts, override. simpl. split_and!; [done..| |].
  - by rewrite fold_left_snoc_map.
  - by rewrite fold_left_insert_lookup, (right_id_L ∅ (∪)).
Qed.

Lemma cfg_init_sections_witness :
  exists accounts override,
    Cfg.section Sample.configfile "accounts" = Ok accounts
    /\ Cfg.section Sample.configfile "override" = Ok override
    /\ Cfg.config_accounts Sample.cfg = map (fun s => s) (map snd accounts)
    /\ Cfg.config_overrides Sample.cfg = list_to_map (rev override).
Proof.
  apply (cfg_init_sections (fun s => s) Sample.configfile Sample.cfg).
  vm_compute. reflexivity.
Defined.

(** *** Files that meet the invariants of their columns *)







(** ** The name of the OFX file *)

Lemma csv_suffix_here_length (cs : list ascii) :
  csv_suffix_here cs = true ->
  length cs = 4 \/ (length cs = 5 /\ last cs = Some "010"%char).
Proof.
  destruct cs as [|c [|c1 [|c2 [|c3 [|c4 [|c5 rest]]]]]]; try done.
  - by left.
  - unfold csv_suffix_here. intros H. right. split; [done|].
    apply andb_true_iff in H as [_ H]. apply Ascii.eqb_eq in H. by subst c4.
  - unfold csv_suffix_here. by rewrite andb_false_r.
Qed.

Lemma lower_letter (e lo up : ascii) :
  (lo, up) ∈ [("c", "C"); ("s", "S"); ("v", "V")]%char ->
  Py.lower e = lo -> Ascii.eqb e lo || Ascii.eqb e up = true.
Proof.
  intros Hin. repeat (apply elem_of_cons in Hin as [[= -> ->]|Hin]);
    [..|by apply elem_of_nil in Hin];
    destruct e as [[] [] [] [] [] [] [] []]; vm_compute; intros H;
    first [reflexivity|discriminate H].
Qed.

Lemma sub_csv_suffix (pre : list ascii) (c e1 e2 e3 : ascii) :
  csv_suffix_here [c; e1; e2; e3] = true -> e3 ≠ "010"%char ->
  sub_csv (pre ++ [c; e1; e2; e3]) = pre ++ Py.chars ".ofx".
Proof.
  intros Hhere Hnl. induction pre as [|x pre IH].
  - simpl app. unfold sub_csv. by rewrite Hhere.
  - assert (Hno : csv_suffix_here (x :: pre ++ [c; e1; e2; e3]) = false).
    { destruct (csv_suffix_here (x :: pre ++ [c; e1; e2; e3])) eqn:H; [|done].
      apply csv_suffix_here_length in H as [H|[H Hlast]].
      - simpl in H. rewrite length_app in H. simpl in H. lia.
      - simpl in H. rewrite length_app in H. simpl in H.
        assert (pre = []) as -> by (destruct pre; [done|simpl in H; lia]).
        simpl in Hlast. congruence. }
    change (sub_csv ((x :: pre) ++ [c; e1; e2; e3]))
      with (if csv_suffix_here (x :: pre ++ [c; e1; e2; e3])
            then Py.chars ".ofx" ++ drop 3 (pre ++ [c; e1; e2; e3])
            else x :: sub_csv (pre ++ [c; e1; e2; e3])).
    by rewrite Hno, IH.
Qed.

(** X26. Without the output option, the OFX file is named after the CSV
    file: when the name of the CSV file ends in [csv], in any mix of
    cases, preceded by any character but a newline, these four
    characters are replaced by [.ofx] and the rest of the name is
    kept. The character before [csv] need not be a point. *)
Theorem ofx_filename_suffix (stem ext : string) (c : ascii) :
  c ≠ "010"%char ->
  Py.str (map Py.lower (Py.chars ext)) = "csv"%string ->
  ofx_filename None (stem +:+ String c ext) = (stem +:+ ".ofx")%string.
Proof.
  intros Hc Hext. apply (f_equal Py.chars) in Hext. rewrite chars_str in Hext.
  unfold ofx_filename. rewrite chars_app.
  change (Py.chars (String c ext)) with (c :: Py.chars ext).
  destruct (Py.chars ext) as [|e1 [|e2 [|e3 [|e4 rest]]]]; try done.
  injection Hext as H1 H2 H3.
  apply (lower_letter e1 "c" "C") in H1; [|set_solver].
  apply (lower_letter e2 "s" "S") in H2; [|set_solver].
  pose proof (lower_letter e3 "v" "V" ltac:(set_solver) H3) as H3'.
  rewrite sub_csv_suffix.
  - by rewrite <- chars_app, str_chars.
  - unfold csv_suffix_here. rewrite H1, H2, H3', !andb_true_r.
    apply negb_true_iff. by apply Ascii.eqb_neq.
  - intros ->. discriminate H3.
Qed.

Lemma ofx_filename_suffix_witness :
  ofx_filename None "export-2023.CSV" = "export-2023.ofx"%string
  /\ ofx_filename None "export_csv" = "export.ofx"%string.
Proof.
  split.
  - apply (ofx_filename_suffix "export-2023" "CSV" "."); [discriminate|reflexivity].
  - apply (ofx_filename_suffix "export" "csv" "_"); [discriminate|reflexivity].
Defined.
